(** * AnADAMA task runners: a shallow embedding

    The development follows [anadama2/runners.py] (task results, the action
    executor, the worker loop and the serial, parallel-local and grid runners)
    and the argument list built by [Run._execute] in [anadama/commands.py].

    Python objects are modelled as follows.
    - Exceptions are values of [exn]; a call that can raise returns an
      [outcome].
    - The file system and everything else an action can change is an abstract
      [World], threaded through the calls that touch it.
    - Sets of task numbers are [gset nat]; dictionaries are [gmap], or
      association lists where the code iterates over them.
    - Channels are lists, oldest item first.
    - Calls whose order matters are recorded in an event log. *)

From Stdlib Require Import ZArith Ascii String DecimalString.
From stdpp Require Import gmap strings list fin_maps.

(** ** Python values shared by both source files *)

(** Decimal rendering of a number, as [str.format] does for an int. *)
Definition str_nat (n : nat) : string :=
  NilZero.string_of_uint (Nat.to_uint n).

(** The one-character string that Python writes as a backslash and an n. *)
Definition newline : string := String "010" EmptyString.

(** Exceptions by class, with the attributes the code reads: [task_no] of
    [TaskFailed], [message] and [errno] of [IOError]. *)
Inductive exn : Type :=
| TaskFailed (msg : string) (task_no : nat)
| ValueError (msg : string)
| TypeError (msg : string)
| IndexError (msg : string)
| KeyError (msg : string)
| StopIteration
| IOError (message : string) (errno : Z)
| EOFError
| ShellException (returncode : Z) (msg : string)
| InvariantViolation (task_no : nat)
| InvalidCommand (msg : string)
| OtherException (msg : string)
| KeyboardInterrupt
| SystemExit.

(** [isinstance(e, Exception)]: the two signals derive from [BaseException]
    only, so [except Exception] lets them through. *)
Definition is_Exception (e : exn) : bool :=
  match e with
  | KeyboardInterrupt | SystemExit => false
  | _ => true
  end.

(** [str(e)] *)
Definition str_exn (e : exn) : string :=
  match e with
  | TaskFailed msg _ | ValueError msg | TypeError msg | IndexError msg
  | KeyError msg | InvalidCommand msg | OtherException msg
  | ShellException _ msg => msg
  | IOError message _ => message
  | InvariantViolation n => "task " +:+ str_nat n +:+ " is already terminal"
  | StopIteration | EOFError | KeyboardInterrupt | SystemExit => EmptyString
  end.

(** [getattr(e, "task_no", None)] *)
Definition exn_task_no (e : exn) : option nat :=
  match e with
  | TaskFailed _ n => Some n
  | _ => None
  end.

Inductive outcome (A : Type) : Type :=
| Return (a : A)
| Raise (e : exn).
Arguments Return {A} a.
Arguments Raise {A} e.

Module Runners.

(** ** Task results *)

Record TaskResult : Type := mkTaskResult {
  task_no : option nat;
  error : option string;
  dep_keys : option (list string);
  dep_compares : option (list (list string))
}.

Definition exception_result (exc : exn) : TaskResult :=
  mkTaskResult (exn_task_no exc) (Some (str_exn exc)) None None.

Definition parent_failed_result (idx parent_idx : nat) : TaskResult :=
  mkTaskResult (Some idx)
    (Some ("Task failed because parent task `" +:+ str_nat parent_idx
           +:+ "' failed"))
    None None.

(** Truth value of [result.error]: [None] and the empty string are false. *)
Definition error_truthy (r : TaskResult) : bool :=
  match error r with
  | None => false
  | Some s => negb (String.eqb s EmptyString)
  end.

Section Executor.

(** Whatever actions read and write: files, environment, subprocess state. *)
Variable World : Type.

(** A tracked object: [name] is its key, [compare()] yields its fingerprint
    in the current world or raises, and [target_repr] is what [str.format]
    prints for it. *)
Record Target : Type := mkTarget {
  name : string;
  compare : World -> outcome (list string);
  target_repr : string
}.

(** An action descriptor is a command string or a callable.  A callable is
    kept as the effect of calling it on its own task. *)
Inductive Action : Type :=
| ShCommand (cmd : string)
| Callable (call : World -> World * outcome unit).

Record Task : Type := mkTask {
  t_task_no : nat;
  task_name : string;
  actions : list Action;
  depends : list Target;
  targets : list Target
}.

Definition ActionFunc : Type := Task -> World -> World * outcome unit.

(** [spawn cmd task w] resolves the command template against the task, runs
    the subprocess and waits for it: the new world and the exit code. *)
Variable spawn : string -> Task -> World -> World * Z.

(** [traceback.format_exc()] for the exception being handled. *)
Variable format_exc : exn -> string.

(** Modelled from the spec: [helpers.sh] and [helpers.apply_sh] are not part
    of the sources at hand.  A command string becomes an action that spawns
    the command and raises when the exit code is not zero; callables are kept
    as they are. *)
Definition sh (cmd : string) : ActionFunc :=
  fun task w =>
    let '(w', rc) := spawn cmd task w in
    if Z.eqb rc 0 then (w', Return tt)
    else (w', Raise (ShellException rc ("Command `" +:+ cmd +:+ "' failed"))).

Definition apply_sh (acts : list Action) : list ActionFunc :=
  map (fun a => match a with
                | ShCommand cmd => sh cmd
                | Callable call => fun _ => call
                end) acts.

(** What an execution leaves behind: the world, and the indices of the
    actions that were called, oldest first. *)
Record Ran (A : Type) : Type := mkRan {
  ran_world : World;
  ran_actions : list nat;
  ran_value : A
}.
Arguments mkRan {A} _ _ _.
Arguments ran_world {A} _.
Arguments ran_actions {A} _.
Arguments ran_value {A} _.

Definition action_error_msg (i : nat) (e : exn) : string :=
  "Error executing action " +:+ str_nat i +:+ ". Original Exception: "
  +:+ newline +:+ format_exc e.

Definition target_error_msg (t : Target) (e : exn) : string :=
  "Failed to produce target `" +:+ target_repr t
  +:+ "'. Original exception: " +:+ format_exc e.

(** The loop of [_get_task_result] over the targets still to visit, with the
    two accumulators. *)
Fixpoint _get_task_result_loop (task : Task) (w : World) (ts : list Target)
    (targ_keys : list string) (targ_compares : list (list string))
    : outcome TaskResult :=
  match ts with
  | [] => Return (mkTaskResult (Some (t_task_no task)) None
                    (Some targ_keys) (Some targ_compares))
  | target :: ts' =>
      let targ_keys := targ_keys ++ [name target] in
      match compare target w with
      | Return c =>
          _get_task_result_loop task w ts' targ_keys (targ_compares ++ [c])
      | Raise e =>
          if is_Exception e then
            Return (exception_result
                      (TaskFailed (target_error_msg target e) (t_task_no task)))
          else Raise e
      end
  end.

Definition _get_task_result (task : Task) (w : World) : outcome TaskResult :=
  _get_task_result_loop task w (targets task) [] [].

(** The loop of [_run_task_locally] over [enumerate(apply_sh(task.actions))],
    from index [i] on. *)
Fixpoint _run_task_locally_loop (task : Task) (fs : list ActionFunc)
    (i : nat) (w : World) (ran : list nat) : Ran (outcome TaskResult) :=
  match fs with
  | [] => mkRan w ran (_get_task_result task w)
  | action_func :: fs' =>
      let '(w', r) := action_func task w in
      match r with
      | Return _ => _run_task_locally_loop task fs' (S i) w' (ran ++ [i])
      | Raise e =>
          if is_Exception e then
            mkRan w' (ran ++ [i])
              (Return (exception_result
                         (TaskFailed (action_error_msg i e) (t_task_no task))))
          else mkRan w' (ran ++ [i]) (Raise e)
      end
  end.

Definition _run_task_locally (task : Task) (w : World)
    : Ran (outcome TaskResult) :=
  _run_task_locally_loop task (apply_sh (actions task)) 0 w [].

End Executor.

Arguments mkTarget {World} _ _ _.
Arguments name {World} _.
Arguments compare {World} _ _.
Arguments target_repr {World} _.
Arguments ShCommand {World} _.
Arguments Callable {World} _.
Arguments mkTask {World} _ _ _ _ _.
Arguments t_task_no {World} _.
Arguments task_name {World} _.
Arguments actions {World} _.
Arguments depends {World} _.
Arguments targets {World} _.
Arguments mkRan {World A} _ _ _.
Arguments ran_world {World A} _.
Arguments ran_actions {World A} _.
Arguments ran_value {World A} _.
Arguments sh {World} spawn cmd _ _.
Arguments apply_sh {World} spawn acts.
Arguments target_error_msg {World} format_exc t e.
Arguments _get_task_result_loop {World} format_exc task w ts _ _.
Arguments _get_task_result {World} format_exc task w.
Arguments _run_task_locally_loop {World} format_exc task fs i w ran.
Arguments _run_task_locally {World} spawn format_exc task w.

(** ** Payloads on a work channel *)

Inductive pyval : Type :=
| PyNone
| PyBool (b : bool)
| PyInt (z : Z)
| PyStr (s : string).

Definition truthy (v : pyval) : bool :=
  match v with
  | PyNone => false
  | PyBool b => b
  | PyInt z => negb (Z.eqb z 0)
  | PyStr s => negb (String.eqb s EmptyString)
  end.

(** The first element of a payload: a dictionary (the stop sentinel is one)
    or the bytes of a pickled task. *)
Inductive Pkl : Type :=
| PklDict (d : gmap string pyval)
| PklBytes (b : string).

(** [type(pkl) is dict and pkl.get("stop", False)] *)
Definition is_stop (pkl : Pkl) : bool :=
  match pkl with
  | PklDict d => truthy (default (PyBool false) (d !! "stop"))
  | PklBytes _ => false
  end.

(** [({"stop": True}, None)] *)
Definition stop_sentinel : Pkl * pyval :=
  (PklDict {[ "stop" := PyBool true ]}, PyNone).

(** ** Events *)

Inductive Event : Type :=
| EvGet
| EvLoads
| EvLockAcquire
| EvReporterRunning (idx : nat)
| EvReporterCommand (idx : nat)
| EvLockRelease
| EvRunTask (idx : nat) (ran : list nat)
| EvResultPut (r : TaskResult)
| EvTaskStarted (idx : nat)
| EvTaskResult (r : TaskResult)
| EvPut (pool : option string) (pkl : Pkl) (extra : pyval)
| EvStartWorkers
| EvTerminate
| EvCleanup
| EvPoll (chan : nat)
| EvSleep (ms : nat).

(** ** The worker loop *)

Section Worker.

Variable World : Type.

(** [pickle.loads] on the bytes of a payload. *)
Variable loads : string -> outcome (Task World).

(** [run_task(task, extra)]: the pools pass [_run_task_locally]. *)
Variable run_task : Task World -> pyval -> World -> Ran World (outcome TaskResult).

Record Worker : Type := mkWorker {
  w_world : World;
  w_result_q : list TaskResult;
  w_trace : list Event
}.

(** How a worker leaves [worker_run_loop]: the loop ended, an exception
    escaped, or the worker is blocked in [work_q.get()] for good. *)
Inductive WorkerExit : Type :=
| Stopped
| Crashed (e : exn)
| Waiting.

Definition w_log (evs : list Event) (st : Worker) : Worker :=
  mkWorker (w_world st) (w_result_q st) (w_trace st ++ evs).

Definition w_put_nowait (r : TaskResult) (st : Worker) : Worker :=
  mkWorker (w_world st) (w_result_q st ++ [r]) (w_trace st ++ [EvResultPut r]).

(** [pickle.loads(pkl)]: a dictionary is not a pickle. *)
Definition pickle_loads (pkl : Pkl) : outcome (Task World) :=
  match pkl with
  | PklDict _ => Raise (TypeError "must be string, not dict")
  | PklBytes b => loads b
  end.

(** The reporter calls of one task, inside the lock when there is one. *)
Definition report_events (reporter lock : bool) (n : nat) : list Event :=
  if reporter then
    (if lock then [EvLockAcquire] else [])
    ++ [EvReporterRunning n; EvReporterCommand n]
    ++ (if lock then [EvLockRelease] else [])
  else [].

(** [worker_run_loop].  [gets] lists what the successive calls of
    [work_q.get()] give this worker; when it runs out the worker waits. *)
Fixpoint worker_run_loop (gets : list (outcome (Pkl * pyval)))
    (reporter lock : bool) (st : Worker) : Worker * WorkerExit :=
  match gets with
  | [] => (st, Waiting)
  | got :: gets' =>
      let st := w_log [EvGet] st in
      match got with
      | Raise (IOError _ _) => (st, Stopped)
      | Raise EOFError => (st, Stopped)
      | Raise e => (st, Crashed e)
      | Return (pkl, extra) =>
          if is_stop pkl then (st, Stopped)
          else
            let st := w_log [EvLoads] st in
            match pickle_loads pkl with
            | Raise e =>
                if is_Exception e then
                  worker_run_loop gets' reporter lock
                    (w_put_nowait (exception_result e) st)
                else (st, Crashed e)
            | Return task =>
                let st := w_log (report_events reporter lock (t_task_no task)) st in
                let r := run_task task extra (w_world st) in
                let st := mkWorker (ran_world r) (w_result_q st)
                            (w_trace st ++ [EvRunTask (t_task_no task) (ran_actions r)]) in
                match ran_value r with
                | Raise e => (st, Crashed e)
                | Return result =>
                    worker_run_loop gets' reporter lock (w_put_nowait result st)
                end
            end
      end
  end.

End Worker.

Arguments mkWorker {World} _ _ _.
Arguments w_world {World} _.
Arguments w_result_q {World} _.
Arguments w_trace {World} _.
Arguments w_log {World} evs st.
Arguments w_put_nowait {World} r st.
Arguments pickle_loads {World} loads pkl.
Arguments worker_run_loop {World} loads run_task gets reporter lock st.

(** ** The run context *)

Section Coordinator.

Variable World : Type.
Variable spawn : string -> Task World -> World -> World * Z.
Variable format_exc : exn -> string.

(** [cloudpickle.dumps(task)] *)
Variable dumps : Task World -> outcome string.

(** [str(task)], as [str.format] prints a task. *)
Variable task_repr : Task World -> string.

(** The state runners read and the hooks change.  [dag] lists the edges
    [(u, v)]: [v] depends on [u].  [saved] is what the skip backend was
    given, oldest first. *)
Record RunContext : Type := mkRunContext {
  tasks : list (Task World);
  dag : list (nat * nat);
  failed_tasks : gset nat;
  completed_tasks : gset nat;
  started_tasks : gset nat;
  saved : list (list string * list (list string))
}.

(** [dag.predecessors(idx)] as a set *)
Definition predecessors (g : list (nat * nat)) (idx : nat) : gset nat :=
  list_to_set (map fst (filter (fun e => snd e = idx) g)).

(** Modelled from the spec: [RunContext._handle_task_started] is not part of
    the sources at hand.  It marks the task started and is idempotent. *)
Definition _handle_task_started (idx : nat) (c : RunContext) : RunContext :=
  mkRunContext (tasks c) (dag c) (failed_tasks c) (completed_tasks c)
    ({[ idx ]} ∪ started_tasks c) (saved c).

(** Modelled from the spec: [RunContext._handle_task_result] is not part of
    the sources at hand.  A result without a task number marks nothing; a
    task that is already terminal is refused; otherwise the task joins
    [failed_tasks] when the result carries an error and [completed_tasks]
    when it does not, and then the backend is given the fingerprints. *)
Definition _handle_task_result (r : TaskResult) (c : RunContext)
    : outcome RunContext :=
  match task_no r with
  | None => Return c
  | Some n =>
      if bool_decide (n ∈ failed_tasks c ∪ completed_tasks c)
      then Raise (InvariantViolation n)
      else match error r with
           | Some _ =>
               Return (mkRunContext (tasks c) (dag c)
                         ({[ n ]} ∪ failed_tasks c) (completed_tasks c)
                         (started_tasks c) (saved c))
           | None =>
               Return (mkRunContext (tasks c) (dag c)
                         (failed_tasks c) ({[ n ]} ∪ completed_tasks c)
                         (started_tasks c)
                         (saved c ++ [(default [] (dep_keys r),
                                       default [] (dep_compares r))]))
           end
  end.

(** ** SerialLocalRunner *)

Record SerialLocalRunner : Type := mkSerial {
  s_ctx : RunContext;
  s_quit_early : bool;
  s_world : World;
  s_trace : list Event
}.

(** The [while] loop of [SerialLocalRunner.run_tasks].  [pops] is the deque
    read from its right end: the head of [pops] is what [pop()] gives next.
    The result holds what is left of the deque, in the same order. *)
Fixpoint serial_run_tasks_loop (pops : list nat) (st : SerialLocalRunner)
    : SerialLocalRunner * list nat * outcome unit :=
  match pops with
  | [] => (st, [], Return tt)
  | idx :: pops' =>
      let parents := predecessors (dag (s_ctx st)) idx in
      let failed_parents := parents ∩ failed_tasks (s_ctx st) in
      match elements failed_parents with
      | parent :: _ =>
          let r := parent_failed_result idx parent in
          let tr := s_trace st ++ [EvTaskResult r] in
          match _handle_task_result r (s_ctx st) with
          | Raise e =>
              (mkSerial (s_ctx st) (s_quit_early st) (s_world st) tr,
               pops', Raise e)
          | Return c =>
              serial_run_tasks_loop pops'
                (mkSerial c (s_quit_early st) (s_world st) tr)
          end
      | [] =>
          let c := _handle_task_started idx (s_ctx st) in
          let tr := s_trace st ++ [EvTaskStarted idx; EvReporterRunning idx;
                                   EvReporterCommand idx] in
          match tasks c !! idx with
          | None =>
              (mkSerial c (s_quit_early st) (s_world st) tr, pops',
               Raise (IndexError "list index out of range"))
          | Some task =>
              let r := _run_task_locally spawn format_exc task (s_world st) in
              let tr := tr ++ [EvRunTask idx (ran_actions r)] in
              match ran_value r with
              | Raise e =>
                  (mkSerial c (s_quit_early st) (ran_world r) tr, pops',
                   Raise e)
              | Return result =>
                  let tr := tr ++ [EvTaskResult result] in
                  match _handle_task_result result c with
                  | Raise e =>
                      (mkSerial c (s_quit_early st) (ran_world r) tr, pops',
                       Raise e)
                  | Return c' =>
                      let st' := mkSerial c' (s_quit_early st) (ran_world r) tr in
                      if s_quit_early st && error_truthy result
                      then (st', pops', Return tt)
                      else serial_run_tasks_loop pops' st'
                  end
              end
          end
      end
  end.

(** [SerialLocalRunner.run_tasks(task_idx_deque)]: the deque is a list whose
    last element is its right end. *)
Definition serial_run_tasks (task_idx_deque : list nat)
    (st : SerialLocalRunner) : SerialLocalRunner * list nat * outcome unit :=
  let '(st', rest, r) := serial_run_tasks_loop (rev task_idx_deque) st in
  (st', rev rest, r).

(** ** ParallelLocalRunner *)

Record ParallelLocalRunner : Type := mkParallel {
  p_ctx : RunContext;
  p_quit_early : bool;
  p_task_idx_deque : list nat;
  p_n_to_do : Z;
  p_started : bool;
  p_jobs : nat;
  p_work_q : list (Pkl * pyval);
  p_trace : list Event
}.

Definition serialize_error_msg (task : Task World) (e : exn) : string :=
  "Unable to serialize task `" +:+ task_repr task
  +:+ "'. Original error was `" +:+ str_exn e +:+ "'.".

(** [deque.pop()]: the right end and the rest. *)
Definition deque_pop (d : list nat) : option (nat * list nat) :=
  match rev d with
  | [] => None
  | idx :: r => Some (idx, rev r)
  end.

(** One round of the [for] loop of [_fill_work_q]. *)
Definition _fill_work_q_body (st : ParallelLocalRunner)
    : ParallelLocalRunner * outcome unit :=
  match deque_pop (p_task_idx_deque st) with
  | None => (st, Raise (IndexError "pop from an empty deque"))
  | Some (idx, d) =>
      let parents := predecessors (dag (p_ctx st)) idx in
      let failed_parents := parents ∩ failed_tasks (p_ctx st) in
      match elements failed_parents with
      | parent :: _ =>
          let r := parent_failed_result idx parent in
          let tr := p_trace st ++ [EvTaskResult r] in
          match _handle_task_result r (p_ctx st) with
          | Raise e =>
              (mkParallel (p_ctx st) (p_quit_early st) d (p_n_to_do st)
                 (p_started st) (p_jobs st) (p_work_q st) tr, Raise e)
          | Return c =>
              (mkParallel c (p_quit_early st) d (p_n_to_do st - 1)
                 (p_started st) (p_jobs st) (p_work_q st) tr, Return tt)
          end
      | [] =>
          if negb (bool_decide (parents ∖ completed_tasks (p_ctx st) = ∅))
          then
            (mkParallel (p_ctx st) (p_quit_early st) (idx :: d) (p_n_to_do st)
               (p_started st) (p_jobs st) (p_work_q st) (p_trace st),
             Return tt)
          else
            let st := mkParallel (p_ctx st) (p_quit_early st) d (p_n_to_do st)
                        (p_started st) (p_jobs st) (p_work_q st) (p_trace st) in
            match tasks (p_ctx st) !! idx with
            | None => (st, Raise (IndexError "list index out of range"))
            | Some task =>
                match dumps task with
                | Raise e =>
                    if is_Exception e
                    then (st, Raise (ValueError (serialize_error_msg task e)))
                    else (st, Raise e)
                | Return b =>
                    (mkParallel (_handle_task_started idx (p_ctx st))
                       (p_quit_early st) d (p_n_to_do st) (p_started st)
                       (p_jobs st) (p_work_q st ++ [(PklBytes b, PyNone)])
                       (p_trace st ++ [EvTaskStarted idx;
                                       EvPut None (PklBytes b) PyNone]),
                     Return tt)
                end
            end
      end
  end.

Fixpoint _fill_work_q_loop (n : nat) (st : ParallelLocalRunner)
    : ParallelLocalRunner * outcome unit :=
  match n with
  | 0 => (st, Return tt)
  | S n' =>
      match _fill_work_q_body st with
      | (st', Return _) => _fill_work_q_loop n' st'
      | (st', Raise e) => (st', Raise e)
      end
  end.

Definition _fill_work_q (st : ParallelLocalRunner)
    : ParallelLocalRunner * outcome unit :=
  match _fill_work_q_loop (length (p_task_idx_deque st)) st with
  | (st', Raise e) => (st', Raise e)
  | (st', Return _) =>
      if p_started st' then (st', Return tt)
      else
        (mkParallel (p_ctx st') (p_quit_early st') (p_task_idx_deque st')
           (p_n_to_do st') true (p_jobs st') (p_work_q st')
           (p_trace st' ++ [EvStartWorkers]), Return tt)
  end.

(** [terminate()]: the work channel is drained, the workers are killed and
    joined. *)
Definition p_terminate (st : ParallelLocalRunner) : ParallelLocalRunner :=
  mkParallel (p_ctx st) (p_quit_early st) (p_task_idx_deque st) (p_n_to_do st)
    (p_started st) (p_jobs st) [] (p_trace st ++ [EvTerminate]).

(** [cleanup()]: one stop sentinel per worker, then the joins. *)
Definition p_cleanup (st : ParallelLocalRunner) : ParallelLocalRunner :=
  mkParallel (p_ctx st) (p_quit_early st) (p_task_idx_deque st) (p_n_to_do st)
    (p_started st) (p_jobs st)
    (p_work_q st ++ replicate (p_jobs st) stop_sentinel)
    (p_trace st ++ replicate (p_jobs st)
                     (EvPut None (fst stop_sentinel) (snd stop_sentinel))
                ++ [EvCleanup]).

(** How [run_tasks] ends: it returns, an exception reaches the caller, or it
    is blocked in [result_q.get()] for good. *)
Inductive RunExit : Type :=
| Finished
| Raised (e : exn)
| Blocked.

(** The [while True] loop of [ParallelLocalRunner.run_tasks] and the
    [cleanup()] after it.  [results] lists what the successive calls of
    [result_q.get()] give; when it runs out the runner waits. *)
Fixpoint parallel_run_tasks_loop (results : list (outcome TaskResult))
    (st : ParallelLocalRunner) : ParallelLocalRunner * RunExit :=
  match _fill_work_q st with
  | (st, Raise e) => (st, Raised e)
  | (st, Return _) =>
      if (p_n_to_do st <=? 0)%Z then (p_cleanup st, Finished)
      else
        match results with
        | [] => (st, Blocked)
        | Raise e :: _ => (p_terminate st, Raised e)
        | Return result :: results' =>
            let tr := p_trace st ++ [EvTaskResult result] in
            match _handle_task_result result (p_ctx st) with
            | Raise e =>
                (mkParallel (p_ctx st) (p_quit_early st) (p_task_idx_deque st)
                   (p_n_to_do st - 1) (p_started st) (p_jobs st)
                   (p_work_q st) tr, Raised e)
            | Return c =>
                let st := mkParallel c (p_quit_early st) (p_task_idx_deque st)
                            (p_n_to_do st - 1) (p_started st) (p_jobs st)
                            (p_work_q st) tr in
                if p_quit_early st && error_truthy result
                then (p_cleanup (p_terminate st), Finished)
                else parallel_run_tasks_loop results' st
            end
        end
  end.

Definition parallel_run_tasks (task_idx_deque : list nat)
    (results : list (outcome TaskResult)) (st : ParallelLocalRunner)
    : ParallelLocalRunner * RunExit :=
  parallel_run_tasks_loop results
    (mkParallel (p_ctx st) (p_quit_early st) task_idx_deque
       (Z.of_nat (length task_idx_deque)) (p_started st) (p_jobs st)
       (p_work_q st) (p_trace st)).

(** ** GridRunner *)

(** A pool class: its name and whether it derives from
    [multiprocessing.Process]. *)
Record WorkerClass : Type := mkWorkerClass {
  cls_name : string;
  isproc : bool
}.

(** The two channels of a pool. *)
Record QPair : Type := mkQPair {
  work_q : list (Pkl * pyval);
  result_q : list TaskResult
}.

(** A dictionary whose iteration order matters: an association list with one
    entry per key. *)
Fixpoint dict_get {V : Type} (k : string) (d : list (string * V)) : option V :=
  match d with
  | [] => None
  | (k', v) :: d' => if String.eqb k' k then Some v else dict_get k d'
  end.

Fixpoint dict_set {V : Type} (k : string) (v : V) (d : list (string * V))
    : list (string * V) :=
  match d with
  | [] => [(k, v)]
  | (k', v') :: d' =>
      if String.eqb k' k then (k, v) :: d' else (k', v') :: dict_set k v d'
  end.

(** [_qcycle] is [itertools.cycle] over the result channels of
    [_worker_qs.values()]: a cursor that counts the calls of [next]. *)
Record GridRunner : Type := mkGrid {
  g_ctx : RunContext;
  g_quit_early : bool;
  g_task_idx_deque : list nat;
  g_n_to_do : Z;
  _worker_config : list (string * (WorkerClass * nat));
  _worker_qs : list (string * QPair);
  routes : gmap nat (string * pyval);
  workers : list (string * WorkerClass);
  g_started : bool;
  default_worker : option string;
  _qcycle : nat;
  g_trace : list Event
}.

(** [GridRunner.__init__(workflow)] *)
Definition GridRunner_init (workflow : RunContext) : GridRunner :=
  mkGrid workflow false [] 0 [] [] ∅ [] false None 0 [].

Definition g_set_ctx (c : RunContext) (g : GridRunner) : GridRunner :=
  mkGrid c (g_quit_early g) (g_task_idx_deque g) (g_n_to_do g)
    (_worker_config g) (_worker_qs g) (routes g) (workers g) (g_started g)
    (default_worker g) (_qcycle g) (g_trace g).

Definition g_set_deque (d : list nat) (g : GridRunner) : GridRunner :=
  mkGrid (g_ctx g) (g_quit_early g) d (g_n_to_do g)
    (_worker_config g) (_worker_qs g) (routes g) (workers g) (g_started g)
    (default_worker g) (_qcycle g) (g_trace g).

Definition g_set_n_to_do (n : Z) (g : GridRunner) : GridRunner :=
  mkGrid (g_ctx g) (g_quit_early g) (g_task_idx_deque g) n
    (_worker_config g) (_worker_qs g) (routes g) (workers g) (g_started g)
    (default_worker g) (_qcycle g) (g_trace g).

Definition g_set_worker_qs (qs : list (string * QPair)) (g : GridRunner)
    : GridRunner :=
  mkGrid (g_ctx g) (g_quit_early g) (g_task_idx_deque g) (g_n_to_do g)
    (_worker_config g) qs (routes g) (workers g) (g_started g)
    (default_worker g) (_qcycle g) (g_trace g).

Definition g_set_qcycle (n : nat) (g : GridRunner) : GridRunner :=
  mkGrid (g_ctx g) (g_quit_early g) (g_task_idx_deque g) (g_n_to_do g)
    (_worker_config g) (_worker_qs g) (routes g) (workers g) (g_started g)
    (default_worker g) n (g_trace g).

Definition g_log (evs : list Event) (g : GridRunner) : GridRunner :=
  mkGrid (g_ctx g) (g_quit_early g) (g_task_idx_deque g) (g_n_to_do g)
    (_worker_config g) (_worker_qs g) (routes g) (workers g) (g_started g)
    (default_worker g) (_qcycle g) (g_trace g ++ evs).

Definition add_worker (worker_class : WorkerClass) (name : string)
    (rate : nat) (default : bool) (g : GridRunner) : GridRunner :=
  mkGrid (g_ctx g) (g_quit_early g) (g_task_idx_deque g) (g_n_to_do g)
    (dict_set name (worker_class, rate) (_worker_config g))
    (_worker_qs g) (routes g) (workers g) (g_started g)
    (if default then Some name else default_worker g)
    (_qcycle g) (g_trace g).

Definition no_route_msg (task_no : nat) : string :=
  "GridRunner tried to run task " +:+ str_nat task_no
  +:+ " but has no runner to run it and no default runner is defined".

Definition route (task_no : nat) (g : GridRunner) : outcome (string * pyval) :=
  match routes g !! task_no with
  | Some r => Return r
  | None =>
      match default_worker g with
      | Some name => Return (name, PyNone)
      | None => Raise (ValueError (no_route_msg task_no))
      end
  end.

(** [_init_workers]: fresh channels for every configured pool, the workers
    of process pools before those of thread pools, and a new cycle. *)
Definition _init_workers (g : GridRunner) : GridRunner :=
  let qs := fold_left (fun qs entry => dict_set (fst entry) (mkQPair [] []) qs)
              (_worker_config g) (_worker_qs g) in
  let of_kind (p : bool) :=
    flat_map (fun entry : string * (WorkerClass * nat) =>
                let '(name, (worker_cls, n_procs)) := entry in
                if Bool.eqb (isproc worker_cls) p
                then replicate n_procs (name, worker_cls) else [])
             (_worker_config g) in
  mkGrid (g_ctx g) (g_quit_early g) (g_task_idx_deque g) (g_n_to_do g)
    (_worker_config g) qs (routes g) (of_kind true ++ of_kind false)
    (g_started g) (default_worker g) 0 (g_trace g).

Definition _get_next_task (g : GridRunner) : GridRunner * outcome (option nat) :=
  match deque_pop (g_task_idx_deque g) with
  | None => (g, Raise (IndexError "pop from an empty deque"))
  | Some (idx, d) =>
      let g := g_set_deque d g in
      let parents := predecessors (dag (g_ctx g)) idx in
      let failed_parents := parents ∩ failed_tasks (g_ctx g) in
      match elements failed_parents with
      | parent :: _ =>
          let r := parent_failed_result idx parent in
          let g := g_log [EvTaskResult r] g in
          match _handle_task_result r (g_ctx g) with
          | Raise e => (g, Raise e)
          | Return c =>
              (g_set_n_to_do (g_n_to_do g - 1) (g_set_ctx c g), Return None)
          end
      | [] =>
          if negb (bool_decide (parents ∖ completed_tasks (g_ctx g) = ∅))
          then (g_set_deque (idx :: d) g, Return None)
          else (g, Return (Some idx))
      end
  end.

(** One round of the [for] loop of [_fill_work_qs]. *)
Definition _fill_work_qs_body (g : GridRunner) : GridRunner * outcome unit :=
  match _get_next_task g with
  | (g, Raise e) => (g, Raise e)
  | (g, Return None) => (g, Return tt)
  | (g, Return (Some idx)) =>
      match tasks (g_ctx g) !! idx with
      | None => (g, Raise (IndexError "list index out of range"))
      | Some task =>
          match dumps task with
          | Raise e =>
              if is_Exception e
              then (g, Raise (ValueError (serialize_error_msg task e)))
              else (g, Raise e)
          | Return b =>
              match route idx g with
              | Raise e => (g, Raise e)
              | Return (name, extra) =>
                  match dict_get name (_worker_qs g) with
                  | None => (g, Raise (KeyError name))
                  | Some q =>
                      let q' := mkQPair (work_q q ++ [(PklBytes b, extra)])
                                  (result_q q) in
                      let g := g_set_worker_qs
                                 (dict_set name q' (_worker_qs g)) g in
                      let g := g_log [EvPut (Some name) (PklBytes b) extra] g in
                      let g := g_set_ctx (_handle_task_started idx (g_ctx g)) g in
                      (g_log [EvTaskStarted idx] g, Return tt)
                  end
              end
          end
      end
  end.

Fixpoint _fill_work_qs_loop (n : nat) (g : GridRunner)
    : GridRunner * outcome unit :=
  match n with
  | 0 => (g, Return tt)
  | S n' =>
      match _fill_work_qs_body g with
      | (g', Return _) => _fill_work_qs_loop n' g'
      | (g', Raise e) => (g', Raise e)
      end
  end.

Definition _fill_work_qs (g : GridRunner) : GridRunner * outcome unit :=
  match _fill_work_qs_loop (length (g_task_idx_deque g)) g with
  | (g', Raise e) => (g', Raise e)
  | (g', Return _) =>
      if g_started g' then (g', Return tt)
      else
        (mkGrid (g_ctx g') (g_quit_early g') (g_task_idx_deque g')
           (g_n_to_do g') (_worker_config g') (_worker_qs g') (routes g')
           (workers g') true (default_worker g') (_qcycle g')
           (g_trace g' ++ [EvStartWorkers]), Return tt)
  end.

(** The [for] loop of [_get_result]: [n] rounds, each a [next(_qcycle)] and
    a [get(False)] on the channel it yields.  [None] when every round found
    its channel empty. *)
Fixpoint _get_result_pass (n : nat) (g : GridRunner)
    : GridRunner * outcome (option TaskResult) :=
  match n with
  | 0 => (g, Return None)
  | S n' =>
      let i := _qcycle g mod length (_worker_qs g) in
      match _worker_qs g !! i with
      | None => (g, Raise StopIteration)
      | Some (name, q) =>
          let g := g_log [EvPoll i] (g_set_qcycle (S (_qcycle g)) g) in
          match result_q q with
          | [] => _get_result_pass n' g
          | ret :: rest =>
              (g_set_worker_qs
                 (<[ i := (name, mkQPair (work_q q) rest) ]> (_worker_qs g)) g,
               Return (Some ret))
          end
      end
  end.

(** What the workers put on the result channels while the runner sleeps:
    each item names the channel by its position. *)
Definition deliver (arrived : list (nat * TaskResult)) (g : GridRunner)
    : GridRunner :=
  g_set_worker_qs
    (fold_left
       (fun qs a =>
          match qs !! fst a with
          | None => qs
          | Some (name, q) =>
              <[ fst a := (name, mkQPair (work_q q) (result_q q ++ [snd a])) ]> qs
          end)
       arrived (_worker_qs g))
    g.

(** How [_get_result] ends: with a result, with an exception, or still
    polling after the last arrival. *)
Inductive GetExit : Type :=
| Got (r : TaskResult)
| GetRaised (e : exn)
| Polling.

(** [_get_result].  [arrivals] lists what arrives during each sleep. *)
Fixpoint _get_result (arrivals : list (list (nat * TaskResult)))
    (g : GridRunner) : GridRunner * GetExit :=
  match _get_result_pass (length (workers g)) g with
  | (g, Raise e) => (g, GetRaised e)
  | (g, Return (Some ret)) => (g, Got ret)
  | (g, Return None) =>
      let g := g_log [EvSleep 50] g in
      match arrivals with
      | [] => (g, Polling)
      | arrived :: arrivals' => _get_result arrivals' (deliver arrived g)
      end
  end.

(** ** The shared grid runner *)

(** The module's global and the runner objects it can refer to: an object is
    known by its position in [objects]. *)
Record Process : Type := mkProcess {
  objects : list GridRunner;
  _current_grid_runner : option nat
}.

Definition current_grid_runner (context : RunContext) (p : Process)
    : nat * Process :=
  match _current_grid_runner p with
  | None =>
      let ref := length (objects p) in
      (ref, mkProcess (objects p ++ [GridRunner_init context]) (Some ref))
  | Some ref => (ref, p)
  end.

End Coordinator.

Arguments mkRunContext {World} _ _ _ _ _ _.
Arguments tasks {World} _.
Arguments dag {World} _.
Arguments failed_tasks {World} _.
Arguments completed_tasks {World} _.
Arguments started_tasks {World} _.
Arguments saved {World} _.
Arguments _handle_task_started {World} idx c.
Arguments _handle_task_result {World} r c.
Arguments mkSerial {World} _ _ _ _.
Arguments s_ctx {World} _.
Arguments s_quit_early {World} _.
Arguments s_world {World} _.
Arguments s_trace {World} _.
Arguments serial_run_tasks_loop {World} spawn format_exc pops st.
Arguments serial_run_tasks {World} spawn format_exc task_idx_deque st.
Arguments mkParallel {World} _ _ _ _ _ _ _ _.
Arguments p_ctx {World} _.
Arguments p_quit_early {World} _.
Arguments p_task_idx_deque {World} _.
Arguments p_n_to_do {World} _.
Arguments p_started {World} _.
Arguments p_jobs {World} _.
Arguments p_work_q {World} _.
Arguments p_trace {World} _.
Arguments serialize_error_msg {World} task_repr task e.
Arguments _fill_work_q_body {World} dumps task_repr st.
Arguments _fill_work_q_loop {World} dumps task_repr n st.
Arguments _fill_work_q {World} dumps task_repr st.
Arguments p_terminate {World} st.
Arguments p_cleanup {World} st.
Arguments parallel_run_tasks_loop {World} dumps task_repr results st.
Arguments parallel_run_tasks {World} dumps task_repr task_idx_deque results st.
Arguments mkGrid {World} _ _ _ _ _ _ _ _ _ _ _ _.
Arguments g_ctx {World} _.
Arguments g_quit_early {World} _.
Arguments g_task_idx_deque {World} _.
Arguments g_n_to_do {World} _.
Arguments _worker_config {World} _.
Arguments _worker_qs {World} _.
Arguments routes {World} _.
Arguments workers {World} _.
Arguments g_started {World} _.
Arguments default_worker {World} _.
Arguments _qcycle {World} _.
Arguments g_trace {World} _.
Arguments GridRunner_init {World} workflow.
Arguments g_set_ctx {World} c g.
Arguments g_set_deque {World} d g.
Arguments g_set_n_to_do {World} n g.
Arguments g_set_worker_qs {World} qs g.
Arguments g_set_qcycle {World} n g.
Arguments g_log {World} evs g.
Arguments add_worker {World} worker_class name rate default g.
Arguments route {World} task_no g.
Arguments _init_workers {World} g.
Arguments _get_next_task {World} g.
Arguments _fill_work_qs_body {World} dumps task_repr g.
Arguments _fill_work_qs_loop {World} dumps task_repr n g.
Arguments _fill_work_qs {World} dumps task_repr g.
Arguments _get_result_pass {World} n g.
Arguments deliver {World} arrived g.
Arguments _get_result {World} arrivals g.
Arguments mkProcess {World} _ _.
Arguments objects {World} _.
Arguments _current_grid_runner {World} _.
Arguments current_grid_runner {World} context p.

(** ** Shutting the grid down, and the shared runner over many calls *)

Section GridShutdown.

Variable World : Type.

(** The inner [for] of [GridRunner.cleanup]: [n] stop sentinels for the
    pool [name], each looking the pool's channels up. *)
Fixpoint g_cleanup_pool (name : string) (n : nat) (g : GridRunner World)
    : GridRunner World * outcome unit :=
  match n with
  | 0 => (g, Return tt)
  | S n' =>
      match dict_get name (_worker_qs g) with
      | None => (g, Raise (KeyError name))
      | Some q =>
          let q' := mkQPair (work_q q ++ [stop_sentinel]) (result_q q) in
          g_cleanup_pool name n'
            (g_log [EvPut (Some name) (fst stop_sentinel) (snd stop_sentinel)]
               (g_set_worker_qs (dict_set name q' (_worker_qs g)) g))
      end
  end.

(** The outer [for] of [GridRunner.cleanup], over [_worker_config.items()]. *)
Fixpoint g_cleanup_pools (config : list (string * (WorkerClass * nat)))
    (g : GridRunner World) : GridRunner World * outcome unit :=
  match config with
  | [] => (g, Return tt)
  | (name, (_, n_procs)) :: config' =>
      match g_cleanup_pool name n_procs g with
      | (g', Return _) => g_cleanup_pools config' g'
      | (g', Raise e) => (g', Raise e)
      end
  end.

(** [GridRunner.cleanup()]: the sentinels, then the joins. *)
Definition g_cleanup (g : GridRunner World) : GridRunner World * outcome unit :=
  match g_cleanup_pools (_worker_config g) g with
  | (g', Return _) => (g_log [EvCleanup] g', Return tt)
  | (g', Raise e) => (g', Raise e)
  end.

(** Calling [current_grid_runner] once per context of [contexts]: the
    references returned, in order, and the process afterwards. *)
Fixpoint current_grid_runner_calls (contexts : list (RunContext World))
    (p : Process World) : list nat * Process World :=
  match contexts with
  | [] => ([], p)
  | c :: contexts' =>
      let '(ref, p1) := current_grid_runner c p in
      let '(refs, p2) := current_grid_runner_calls contexts' p1 in
      (ref :: refs, p2)
  end.

End GridShutdown.

Arguments g_cleanup_pool {World} name n g.
Arguments g_cleanup_pools {World} config g.
Arguments g_cleanup {World} g.
Arguments current_grid_runner_calls {World} contexts p.

End Runners.

Module Commands.

(** ** The runner call of [Run._execute] *)

(** Python values that reach the runner's constructor.  A list is a
    reference into the store of list objects, so that two names for one list
    see the same elements. *)
Inductive value : Type :=
| VNone
| VBool (b : bool)
| VInt (z : Z)
| VObj (name : string)
| VList (ref : nat).

(** The list objects of the program, each known by its position. *)
Abbreviation store := (list (list value)).

(** [[x1, ..., xn]]: a new list object. *)
Definition list_new (xs : list value) (h : store) : nat * store :=
  (length h, h ++ [xs]).

(** [l.append(x)] on the list object at [ref]. *)
Definition list_append (ref : nat) (x : value) (h : store) : store :=
  match h !! ref with
  | None => h
  | Some xs => <[ ref := xs ++ [x] ]> h
  end.

(** [*l]: the elements of the list object at [ref]. *)
Definition list_unpack (ref : nat) (h : store) : list value :=
  default [] (h !! ref).

Inductive RunnerClass : Type :=
| Runner
| MRunner
| MThreadRunner
| MappedRunner (key : string).

Section Execute.

(** [RUNNER_MAP] of [anadama/runner.py] *)
Variable RUNNER_MAP : gmap string RunnerClass.

(** [MRunner.available()] *)
Variable MRunner_available : bool.

(** [_discover_runner_class]: [None] when the function ends without a
    [return]. *)
Definition _discover_runner_class (num_process : Z) (par_type : string)
    : outcome (option RunnerClass) :=
  if Z.eqb num_process 0 then Return (Some Runner)
  else if String.eqb par_type "process" then
    (if MRunner_available then Return (Some MRunner) else Return None)
  else if String.eqb par_type "thread" then Return (Some MThreadRunner)
  else Raise (InvalidCommand ("Invalid parallel type " +:+ par_type)).

(** What [_execute] hands to the constructor: the class and the unpacked
    argument list, together with the list object the arguments came from. *)
Record RunnerCall : Type := mkRunnerCall {
  call_class : RunnerClass;
  call_args : list value;
  call_run_args : nat
}.

(** The [try] block of [Run._execute] up to the call of the constructor.
    [dep_class], [dep_file] and [opt_runner] are read from [self];
    [reporter_obj] is what the code before the block made of [reporter]. *)
Definition _execute (dep_class dep_file reporter_obj : value)
    (opt_runner : string) (verbosity : value) (always continue_ : bool)
    (num_process : Z) (par_type : string) (h : store)
    : store * outcome RunnerCall :=
  let '(run_args, h) :=
    list_new [dep_class; dep_file; reporter_obj; VBool continue_;
              VBool always; verbosity] h in
  let h := if (0 <? num_process)%Z
           then list_append run_args (VList run_args) h else h in
  let discovered :=
    match RUNNER_MAP !! opt_runner with
    | Some cls => Return (Some cls)
    | None => _discover_runner_class num_process par_type
    end in
  match discovered with
  | Raise e => (h, Raise e)
  | Return None => (h, Raise (TypeError "'NoneType' object is not callable"))
  | Return (Some cls) =>
      (h, Return (mkRunnerCall cls (list_unpack run_args h) run_args))
  end.

(** [ListDag._execute]: the runner option is overwritten, the module global
    [dag.TMP_FILE_DIR] takes the [tmpfiledir] option, and [Run._execute]
    does the rest.  The result holds the options and the global
    afterwards. *)
Definition ListDag_execute (opt_values : gmap string string)
    (TMP_FILE_DIR : string) (dep_class dep_file reporter_obj : value)
    (verbosity : value) (always continue_ : bool)
    (num_process : Z) (par_type : string) (h : store)
    : gmap string string * string * store * outcome RunnerCall :=
  let opt_values := <[ "runner" := "jenkins" ]> opt_values in
  match opt_values !! "tmpfiledir" with
  | None => (opt_values, TMP_FILE_DIR, h, Raise (KeyError "tmpfiledir"))
  | Some dir =>
      match opt_values !! "runner" with
      | None => (opt_values, dir, h, Raise (KeyError "runner"))
      | Some opt_runner =>
          let '(h', o) :=
            _execute dep_class dep_file reporter_obj opt_runner verbosity
              always continue_ num_process par_type h in
          (opt_values, dir, h', o)
      end
  end.

End Execute.

End Commands.

(** * What the executor is asked to do *)

Module Spec.
Import Runners.

Section ExecutorSpec.

Variable World : Type.
Variable spawn : string -> Task World -> World -> World * Z.

(** The actions [fs], called one after the other on [task] from world [w],
    all return, and leave world [w']. *)
Inductive actions_succeed (task : Task World)
    : list (ActionFunc World) -> World -> World -> Prop :=
| succeed_nil (w : World) : actions_succeed task [] w w
| succeed_cons (f : ActionFunc World) (fs : list (ActionFunc World))
    (w w1 w2 : World) :
    f task w = (w1, Return tt) ->
    actions_succeed task fs w1 w2 ->
    actions_succeed task (f :: fs) w w2.

(** The fingerprint of a target whose [compare()] returns. *)
Definition fingerprint (w : World) (t : Target World) : list string :=
  match compare t w with
  | Return c => c
  | Raise _ => []
  end.

(** An action fails in world [w] with an error the executor handles: a shell
    command exits non-zero, a callable raises an exception of class
    [Exception].  [KeyboardInterrupt] and [SystemExit] are left out: see
    [action_raises]. *)
Definition action_fails (a : Action World) (task : Task World) (w : World)
    : Prop :=
  match a with
  | ShCommand cmd => snd (spawn cmd task w) ≠ 0%Z
  | Callable call => ∃ e, snd (call w) = Raise e ∧ is_Exception e = true
  end.

(** An action fails in world [w], in the widest reading: a shell command
    exits non-zero, a callable raises an exception of whatever class. *)
Definition action_raises (a : Action World) (task : Task World) (w : World)
    : Prop :=
  match a with
  | ShCommand cmd => snd (spawn cmd task w) ≠ 0%Z
  | Callable call => ∃ e, snd (call w) = Raise e
  end.

(** The world an action leaves behind. *)
Definition world_after (a : Action World) (task : Task World) (w : World)
    : World :=
  match a with
  | ShCommand cmd => fst (spawn cmd task w)
  | Callable call => fst (call w)
  end.

Variable format_exc : exn -> string.

(** The action-failure rule in the widest reading of "fails": whenever the
    actions before index [i] succeed and the action at index [i] raises, of
    whatever class the exception, the executor returns a failed result whose
    error names [i] and ends with the traceback, without keys or
    fingerprints, and calls no action of a greater index. *)
Definition every_raise_is_reported (task : Task World) (w : World) : Prop :=
  ∀ (pre post : list (Action World)) (a : Action World) (w1 : World),
    actions task = pre ++ a :: post ->
    actions_succeed task (apply_sh spawn pre) w w1 ->
    action_raises a task w1 ->
    let i := length pre in
    let r := _run_task_locally spawn format_exc task w in
    ∃ e result,
      ran_value r = Return result
      ∧ task_no result = Some (t_task_no task)
      ∧ error result
        = Some ("Error executing action " +:+ str_nat i
                +:+ ". Original Exception: " +:+ newline
                +:+ format_exc e)
      ∧ dep_keys result = None
      ∧ dep_compares result = None
      ∧ (∀ j, j ∈ ran_actions r -> j ≤ i).

End ExecutorSpec.

Arguments actions_succeed {World} task _ _ _.
Arguments fingerprint {World} w t.
Arguments action_fails {World} spawn a task w.
Arguments action_raises {World} spawn a task w.
Arguments every_raise_is_reported {World} spawn format_exc task w.
Arguments world_after {World} spawn a task w.

Section GateSpec.

Variable World : Type.
Variable spawn : string -> Task World -> World -> World * Z.
Variable format_exc : exn -> string.

(** The predecessors of [idx] that failed. *)
Definition failed_parents (c : RunContext World) (idx : nat) : gset nat :=
  predecessors (dag c) idx ∩ failed_tasks c.

(** The predecessors of [idx] that have not completed. *)
Definition undone_parents (c : RunContext World) (idx : nat) : gset nat :=
  predecessors (dag c) idx ∖ completed_tasks c.

(** The waiting rule of the gate, read on the serial runner: a run that pops
    an index with no failed predecessor and some predecessor not yet
    completed does not run that task. *)
Definition serial_defers (st : SerialLocalRunner World) (idx : nat) : Prop :=
  failed_parents (s_ctx st) idx = ∅ ->
  undone_parents (s_ctx st) idx ≠ ∅ ->
  ∀ ran, EvRunTask idx ran
         ∉ s_trace (serial_run_tasks spawn format_exc [idx] st).1.1.

(** The last part of the serialization claim: a run of the parallel-local
    runner that ends with the serialization error of a task has terminated
    and cleaned up before the error reaches the caller. *)
Definition serialization_error_after_shutdown
    (dumps : Task World -> outcome string)
    (task_repr : Task World -> string)
    (task_idx_deque : list nat) (results : list (outcome TaskResult))
    (st : ParallelLocalRunner World) : Prop :=
  ∀ st' task e,
    parallel_run_tasks dumps task_repr task_idx_deque results st
    = (st', Raised (ValueError (serialize_error_msg task_repr task e))) ->
    EvTerminate ∈ p_trace st' ∧ EvCleanup ∈ p_trace st'.

(** The polls of [w] rounds of the cursor from position [c] over [p]
    channels. *)
Definition cursor_polls (c p w : nat) : list Event :=
  (fun k => EvPoll ((c + k) mod p)) <$> seq 0 w.

Definition is_poll (i : nat) (ev : Event) : bool :=
  match ev with
  | EvPoll j => Nat.eqb i j
  | _ => false
  end.

(** How often channel [i] is polled in a trace. *)
Definition polls_of (i : nat) (tr : list Event) : nat :=
  length (List.filter (is_poll i) tr).

Definition channels_empty (g : GridRunner World) : Prop :=
  Forall (fun nq : string * QPair => result_q nq.2 = []) (_worker_qs g).

(** The polling claim, read on an attempt that finds every channel empty:
    the [for] loop of [_get_result] polls each channel exactly once. *)
Definition each_channel_polled_once (g : GridRunner World) : Prop :=
  channels_empty g ->
  ∀ i, i < length (_worker_qs g) ->
       polls_of i (drop (length (g_trace g))
                     (g_trace (_get_result_pass (length (workers g)) g).1))
       = 1.

End GateSpec.

Arguments failed_parents {World} c idx.
Arguments undone_parents {World} c idx.
Arguments serial_defers {World} spawn format_exc st idx.
Arguments channels_empty {World} g.
Arguments each_channel_polled_once {World} g.
Arguments serialization_error_after_shutdown {World} dumps task_repr
  task_idx_deque results st.

(** Counting events of one kind in a trace. *)
Definition count_events (f : Event -> bool) (tr : list Event) : nat :=
  length (List.filter f tr).

Definition is_acquire (ev : Event) : bool :=
  match ev with EvLockAcquire => true | _ => false end.

Definition is_release (ev : Event) : bool :=
  match ev with EvLockRelease => true | _ => false end.

Definition is_task_result (ev : Event) : bool :=
  match ev with EvTaskResult _ => true | _ => false end.

Definition is_cleanup (ev : Event) : bool :=
  match ev with EvCleanup => true | _ => false end.

Definition is_sleep (ev : Event) : bool :=
  match ev with EvSleep _ => true | _ => false end.

(** The results handed to the coordinator in a trace. *)
Definition results_delivered (tr : list Event) : nat :=
  count_events is_task_result tr.

End Spec.

(** * Concrete runs *)

Module Examples.
Import Runners.

(** A world that only counts the actions that changed it. *)
Definition spawn (cmd : string) (task : Task nat) (w : nat) : nat * Z :=
  (S w, if String.eqb cmd "true" then 0%Z else 1%Z).

Definition format_exc (e : exn) : string :=
  "Traceback (most recent call last): " +:+ str_exn e.

Definition out_txt : Target nat :=
  mkTarget "out.txt" (fun w => Return [str_nat w]) "out.txt".

Definition log_txt : Target nat :=
  mkTarget "log.txt" (fun _ => Return ["0"; "1"]) "log.txt".

Definition bump : Action nat := Callable (fun w => (S w, Return tt)).

Definition boom : Action nat :=
  Callable (fun w => (w, Raise (OtherException "boom"))).

(** Two actions that succeed and two targets. *)
Definition good_task : Task nat :=
  mkTask 0 "good" [ShCommand "true"; bump] [] [out_txt; log_txt].

(** The action at index 1 raises; the one at index 2 would succeed. *)
Definition bad_task : Task nat :=
  mkTask 1 "bad" [bump; boom; ShCommand "true"] [] [out_txt].

(** A worker of the parallel-local pool: it unpickles two known payloads
    and runs tasks with the local executor. *)
Definition loads (b : string) : outcome (Task nat) :=
  if String.eqb b "good" then Return good_task
  else if String.eqb b "bad" then Return bad_task
  else Raise (OtherException "unpickling failed").

Definition run_task (task : Task nat) (extra : pyval) (w : nat)
    : Ran nat (outcome TaskResult) :=
  _run_task_locally spawn format_exc task w.

Definition idle_worker : Worker nat := mkWorker 0 [] [].

(** Task 1 depends on task 0; nothing has run yet. *)
Definition ctx0 : RunContext nat :=
  mkRunContext [good_task; bad_task] [(0, 1)] ∅ ∅ ∅ [].

Definition fast_cls : WorkerClass := mkWorkerClass "FastWorker" true.
Definition slow_cls : WorkerClass := mkWorkerClass "SlowWorker" false.

(** A grid with a default pool of two workers and a second pool of one
    worker, task 1 being routed to the second. *)
Definition grid0 : GridRunner nat :=
  let g := add_worker slow_cls "slow" 1 false
             (add_worker fast_cls "fast" 2 true (GridRunner_init ctx0)) in
  mkGrid (g_ctx g) (g_quit_early g) (g_task_idx_deque g) (g_n_to_do g)
    (_worker_config g) (_worker_qs g) {[ 1 := ("slow", PyInt 7) ]}
    (workers g) (g_started g) (default_worker g) (_qcycle g) (g_trace g).

(** The same grid without a default pool. *)
Definition grid_no_default : GridRunner nat :=
  mkGrid (g_ctx grid0) (g_quit_early grid0) (g_task_idx_deque grid0)
    (g_n_to_do grid0) (_worker_config grid0) (_worker_qs grid0)
    (routes grid0) (workers grid0) (g_started grid0) None (_qcycle grid0)
    (g_trace grid0).

(** A grid with as many workers as pools, after [_init_workers]. *)
Definition grid_even : GridRunner nat :=
  _init_workers
    (add_worker slow_cls "slow" 1 false
       (add_worker fast_cls "fast" 1 true (GridRunner_init ctx0))).

(** A process in which no grid runner was asked for yet. *)
Definition fresh_process : Process nat := mkProcess [] None.

(** A second context, with task 0 already completed. *)
Definition ctx1 : RunContext nat :=
  mkRunContext [good_task; bad_task] [(0, 1)] ∅ {[ 0 ]} {[ 0 ]} [].

(** A serial runner about to start on [ctx0]. *)
Definition serial0 : SerialLocalRunner nat := mkSerial ctx0 false 0 [].

(** A context in which task 0 has failed. *)
Definition ctx_failed : RunContext nat :=
  mkRunContext [good_task; bad_task] [(0, 1)] {[ 0 ]} ∅ {[ 0 ]} [].

Definition dumps (task : Task nat) : outcome string :=
  if String.eqb (task_name task) "good" then Return "good"
  else Raise (OtherException "can't pickle function objects").

Definition task_repr (task : Task nat) : string :=
  "Task(" +:+ task_name task +:+ ")".

(** A parallel-local runner with two workers, about to start. *)
Definition parallel0 (c : RunContext nat) (d : list nat)
    : ParallelLocalRunner nat :=
  mkParallel c false d (Z.of_nat (length d)) false 2 [] [].

(** What a worker sends back after running [good_task] in world 0. *)
Definition good_result : TaskResult :=
  mkTaskResult (Some 0) None (Some ["out.txt"; "log.txt"])
    (Some [["2"]; ["0"; "1"]]).

(** The grid after [_init_workers], with a deque to drain. *)
Definition grid_ready (c : RunContext nat) (d : list nat) : GridRunner nat :=
  let g := _init_workers grid0 in
  g_set_n_to_do (Z.of_nat (length d)) (g_set_deque d (g_set_ctx c g)).

(** A target that was not produced. *)
Definition missing_txt : Target nat :=
  mkTarget "missing.txt" (fun _ => Raise (OtherException "No such file"))
    "TrackedFile(missing.txt)".

(** A task whose action succeeds and whose second target is missing. *)
Definition untargeted_task : Task nat :=
  mkTask 2 "untargeted" [bump] [] [out_txt; missing_txt; log_txt].

(** A task interrupted in its second action. *)
Definition interrupted_task : Task nat :=
  mkTask 3 "interrupted"
    [bump; Callable (fun w => (w, Raise KeyboardInterrupt)); bump] []
    [out_txt].

(** A task whose second action calls [sys.exit]. *)
Definition exiting_task : Task nat :=
  mkTask 4 "exiting"
    [bump; Callable (fun w => (w, Raise SystemExit)); bump] []
    [out_txt].

(** Two independent tasks: task 1 fails, task 0 would succeed. *)
Definition ctx_quit : RunContext nat :=
  mkRunContext [good_task; bad_task] [] ∅ ∅ ∅ [].

(** A grid whose pools have no workers. *)
Definition grid_idle : GridRunner nat :=
  deliver [(0, good_result)]
    (_init_workers (add_worker fast_cls "fast" 0 true (GridRunner_init ctx0))).

(** A grid whose task 0 is routed to a pool that was never registered. *)
Definition grid_ghost : GridRunner nat :=
  let g := grid_ready ctx0 [0] in
  mkGrid (g_ctx g) (g_quit_early g) (g_task_idx_deque g) (g_n_to_do g)
    (_worker_config g) (_worker_qs g) {[ 0 := ("ghost", PyNone) ]}
    (workers g) (g_started g) (default_worker g) (_qcycle g) (g_trace g).

(** A grid without a default pool, after [_init_workers], with task 0 to
    send. *)
Definition grid_lost : GridRunner nat :=
  g_set_deque [0] (_init_workers grid_no_default).

End Examples.

Module CommandExamples.
Import Commands.

Definition RUNNER_MAP : gmap string RunnerClass :=
  {[ "jenkins" := MappedRunner "jenkins" ]}.

Definition dep_class : value := VObj "dep_class".
Definition dep_file : value := VObj ".doit.db".
Definition reporter_obj : value := VObj "ConsoleReporter".

End CommandExamples.

(** * Properties *)

Import Runners.

Section ExecutorFacts.

Context {World : Type}.
Variable spawn : string -> Task World -> World -> World * Z.
Variable format_exc : exn -> string.

Lemma get_task_result_loop_ok (task : Task World) (w : World)
    (ts : list (Target World)) :
  Forall (fun t => ∃ c, compare t w = Return c) ts ->
  ∀ ks cs,
    _get_task_result_loop format_exc task w ts ks cs
    = Return (mkTaskResult (Some (t_task_no task)) None
                (Some (ks ++ (name <$> ts)))
                (Some (cs ++ (Spec.fingerprint w <$> ts)))).
Proof.
  induction 1 as [|t ts [c Hc] _ IH]; intros ks cs;
    cbn [_get_task_result_loop].
  - by rewrite !fmap_nil, !app_nil_r.
  - rewrite Hc, IH, !fmap_cons. unfold Spec.fingerprint at 2.
    rewrite Hc. by rewrite <- !app_assoc.
Qed.

Lemma run_task_locally_loop_ok (task : Task World)
    (fs : list (ActionFunc World)) (w w' : World) :
  Spec.actions_succeed task fs w w' ->
  ∀ i ran,
    _run_task_locally_loop format_exc task fs i w ran
    = mkRan w' (ran ++ seq i (length fs)) (_get_task_result format_exc task w').
Proof.
  induction 1 as [w|f fs w w1 w2 Hf _ IH]; intros i ran; simpl.
  - by rewrite app_nil_r.
  - rewrite Hf, IH. by rewrite <- app_assoc.
Qed.

Lemma action_fails_raises (a : Action World) (task : Task World) (w : World) :
  Spec.action_fails spawn a task w ->
  ∃ e, is_Exception e = true
       ∧ ∀ f, apply_sh spawn [a] = [f] ->
              f task w = (Spec.world_after spawn a task w, Raise e).
Proof.
  destruct a as [cmd|call]; simpl.
  - intros Hrc.
    exists (ShellException (snd (spawn cmd task w))
              ("Command `" +:+ cmd +:+ "' failed")).
    split; [done|]. intros f [= <-].
    unfold sh. destruct (spawn cmd task w) as [w1 rc]. simpl in *.
    by destruct (Z.eqb_spec rc 0) as [->|_].
  - intros (e & He & Hexc). exists e. split; [done|]. intros f [= <-].
    destruct (call w) as [w1 r]. simpl in *. by subst.
Qed.

(** C2: when every action of a task succeeds and every target's
    [compare()] succeeds, the executor returns a result with the task's
    number, no error, one key and one fingerprint per target, the [i]-th key
    being the name of the [i]-th target and the [i]-th fingerprint the list
    its [compare()] produced. *)
Theorem run_task_locally_success (task : Task World) (w w' : World) :
  Spec.actions_succeed task (apply_sh spawn (actions task)) w w' ->
  Forall (fun t => ∃ c, compare t w' = Return c) (targets task) ->
  ∃ keys cmps,
    ran_value (_run_task_locally spawn format_exc task w)
      = Return (mkTaskResult (Some (t_task_no task)) None
                  (Some keys) (Some cmps))
    ∧ length keys = length (targets task)
    ∧ length cmps = length (targets task)
    ∧ ∀ i t, targets task !! i = Some t ->
        keys !! i = Some (name t)
        ∧ ∃ c, compare t w' = Return c ∧ cmps !! i = Some c.
Proof.
  intros Hacts Htargs.
  exists (name <$> targets task), (Spec.fingerprint w' <$> targets task).
  unfold _run_task_locally.
  rewrite (run_task_locally_loop_ok _ _ _ _ Hacts). simpl.
  unfold _get_task_result.
  rewrite (get_task_result_loop_ok _ _ _ Htargs). simpl.
  split; [done|]. rewrite !length_fmap. do 2 (split; [done|]).
  intros i t Hi. rewrite !list_lookup_fmap, Hi. simpl. split; [done|].
  rewrite Forall_lookup in Htargs. destruct (Htargs i t Hi) as [c Hc].
  exists c. split; [done|]. unfold Spec.fingerprint. by rewrite Hc.
Qed.

Lemma apply_sh_app (xs ys : list (Action World)) :
  apply_sh spawn (xs ++ ys) = apply_sh spawn xs ++ apply_sh spawn ys.
Proof. unfold apply_sh. apply map_app. Qed.

Lemma run_task_locally_loop_app (task : Task World)
    (fs gs : list (ActionFunc World)) (w w' : World) :
  Spec.actions_succeed task fs w w' ->
  ∀ i ran,
    _run_task_locally_loop format_exc task (fs ++ gs) i w ran
    = _run_task_locally_loop format_exc task gs (i + length fs) w'
        (ran ++ seq i (length fs)).
Proof.
  induction 1 as [w|f fs w w1 w2 Hf _ IH]; intros i ran; simpl.
  - by rewrite Nat.add_0_r, app_nil_r.
  - rewrite Hf, IH. rewrite <- app_assoc. simpl.
    by rewrite Nat.add_succ_r.
Qed.


End ExecutorFacts.

Lemma run_task_locally_success_witness :
  ∃ keys cmps,
    ran_value (_run_task_locally Examples.spawn Examples.format_exc
                 Examples.good_task 0)
      = Return (mkTaskResult (Some 0) None (Some keys) (Some cmps))
    ∧ length keys = 2 ∧ length cmps = 2
    ∧ ∀ i t, targets Examples.good_task !! i = Some t ->
        keys !! i = Some (name t)
        ∧ ∃ c, compare t 2 = Return c ∧ cmps !! i = Some c.
Proof.
  apply (run_task_locally_success Examples.spawn Examples.format_exc
           Examples.good_task 0 2).
  - repeat (eapply Spec.succeed_cons; [reflexivity|]). apply Spec.succeed_nil.
  - repeat constructor; eexists; reflexivity.
Defined.



Section WorkerFacts.

Context {World : Type}.
Variable loads : string -> outcome (Task World).
Variable run_task :
  Task World -> pyval -> World -> Ran World (outcome TaskResult).

(** C7: a payload whose first element is a dictionary with [stop] set to
    true ends the loop at once: the worker stops, nothing is unpickled (the
    trace gains the [get] and no [loads]), the result channel and the world
    are as before, and the payloads behind it are not read. *)
Theorem worker_stop_sentinel (d : gmap string pyval) (extra : pyval)
    (gets : list (outcome (Pkl * pyval))) (reporter lock : bool)
    (st : Worker World) :
  d !! "stop" = Some (PyBool true) ->
  worker_run_loop loads run_task (Return (PklDict d, extra) :: gets)
    reporter lock st
  = (mkWorker (w_world st) (w_result_q st) (w_trace st ++ [EvGet]), Stopped).
Proof.
  intros Hstop. cbn [worker_run_loop]. unfold is_stop. by rewrite Hstop.
Qed.


End WorkerFacts.

Lemma worker_stop_sentinel_witness :
  worker_run_loop Examples.loads Examples.run_task
    [Return stop_sentinel; Return (PklBytes "good", PyNone)]
    true true Examples.idle_worker
  = (mkWorker 0 [] [EvGet], Stopped).
Proof.
  apply (worker_stop_sentinel Examples.loads Examples.run_task
           {[ "stop" := PyBool true ]} PyNone
           [Return (PklBytes "good", PyNone)] true true Examples.idle_worker).
  reflexivity.
Defined.


Section GridFacts.

Context {World : Type}.

(** C5: [route] gives the registered route of a task that has one;
    otherwise the default pool with no extra payload when a default is set;
    otherwise it fails with the no-route error, a [ValueError] whose message
    names the task. *)
Theorem route_cases (g : GridRunner World) (task_no : nat) :
  (∀ r, routes g !! task_no = Some r -> route task_no g = Return r)
  ∧ (∀ name, routes g !! task_no = None -> default_worker g = Some name ->
       route task_no g = Return (name, PyNone))
  ∧ (routes g !! task_no = None -> default_worker g = None ->
       route task_no g = Raise (ValueError (no_route_msg task_no))).
Proof.
  unfold route. repeat split.
  - by intros r ->.
  - by intros name -> ->.
  - by intros -> ->.
Qed.

(** C9: from a process whose global is unset, two calls of
    [current_grid_runner] return the same object; it was built from the
    first context, and the second call changes nothing, whatever context it
    is given. *)
Theorem current_grid_runner_memoized (c1 c2 : RunContext World)
    (p : Process World) :
  _current_grid_runner p = None ->
  ∃ ref p1,
    current_grid_runner c1 p = (ref, p1)
    ∧ current_grid_runner c2 p1 = (ref, p1)
    ∧ objects p1 !! ref = Some (GridRunner_init c1).
Proof.
  intros Hnone. unfold current_grid_runner at 1. rewrite Hnone.
  eexists _, _. split; [reflexivity|]. split; [reflexivity|]. simpl.
  rewrite lookup_app_r by lia. by rewrite Nat.sub_diag.
Qed.

End GridFacts.

Lemma route_cases_witness :
  route 1 Examples.grid0 = Return ("slow", PyInt 7)
  ∧ route 0 Examples.grid0 = Return ("fast", PyNone)
  ∧ route 0 Examples.grid_no_default = Raise (ValueError (no_route_msg 0)).
Proof.
  split; [|split].
  - apply (proj1 (route_cases Examples.grid0 1)). reflexivity.
  - apply (proj1 (proj2 (route_cases Examples.grid0 0))); reflexivity.
  - apply (proj2 (proj2 (route_cases Examples.grid_no_default 0)));
      reflexivity.
Defined.

Lemma current_grid_runner_memoized_witness :
  ∃ ref p1,
    current_grid_runner Examples.ctx0 Examples.fresh_process = (ref, p1)
    ∧ current_grid_runner Examples.ctx1 p1 = (ref, p1)
    ∧ objects p1 !! ref = Some (GridRunner_init Examples.ctx0).
Proof.
  apply (current_grid_runner_memoized Examples.ctx0 Examples.ctx1
           Examples.fresh_process).
  reflexivity.
Defined.

Section GateFacts.

Context {World : Type}.
Variable spawn : string -> Task World -> World -> World * Z.
Variable format_exc : exn -> string.
Variable dumps : Task World -> outcome string.
Variable task_repr : Task World -> string.

Lemma deque_pop_snoc (d : list nat) (idx : nat) :
  deque_pop (d ++ [idx]) = Some (idx, d).
Proof.
  unfold deque_pop. rewrite rev_app_distr. simpl. by rewrite rev_involutive.
Qed.

Lemma elements_pick (X : gset nat) :
  X ≠ ∅ -> ∃ x xs, elements X = x :: xs ∧ x ∈ X.
Proof.
  intros HX. destruct (elements X) as [|x xs] eqn:E.
  - apply elements_empty_inv in E. by apply leibniz_equiv in E.
  - exists x, xs. split; [done|]. apply elem_of_elements. rewrite E. by left.
Qed.

Lemma undone_test (X : gset nat) :
  X ≠ ∅ -> negb (bool_decide (X = ∅)) = true.
Proof. intros HX. by rewrite bool_decide_eq_false_2. Qed.

Lemma handle_task_result_started (r : TaskResult) (c c' : RunContext World) :
  _handle_task_result r c = Return c' -> started_tasks c' = started_tasks c.
Proof.
  unfold _handle_task_result. intros H.
  destruct (task_no r); [|by inversion H].
  destruct (bool_decide _); [done|].
  destruct (error r); by inversion H.
Qed.

(** The trace of the serial loop only grows, a task it started stays
    started, and the loop never puts an index back: what it leaves is the
    tail of what it was given. *)
Lemma serial_loop_grows (pops : list nat) :
  ∀ st : SerialLocalRunner World,
    let out := serial_run_tasks_loop spawn format_exc pops st in
    (∃ tail, s_trace out.1.1 = s_trace st ++ tail)
    ∧ started_tasks (s_ctx st) ⊆ started_tasks (s_ctx out.1.1)
    ∧ out.1.2 `suffix_of` pops.
Proof.
  induction pops as [|idx pops IH]; intros st; cbn zeta.
  - simpl. split; [exists []; by rewrite app_nil_r|done].
  - cbn [serial_run_tasks_loop].
    destruct (elements _) as [|parent ?].
    + set (c := _handle_task_started idx (s_ctx st)).
      assert (Hc : started_tasks (s_ctx st) ⊆ started_tasks c)
        by (subst c; cbn [_handle_task_started started_tasks];
            apply union_subseteq_r).
      destruct (tasks _ !! idx) as [task|]; simpl.
      2:{ split; [eexists; reflexivity|].
          split; [done|by apply suffix_cons_r]. }
      destruct (ran_value _) as [result|e]; simpl.
      2:{ split; [eexists; by rewrite <- app_assoc|].
          split; [done|by apply suffix_cons_r]. }
      destruct (_handle_task_result _ _) as [c'|e] eqn:Hh; simpl.
      2:{ split; [eexists; by rewrite <- !app_assoc|].
          split; [done|by apply suffix_cons_r]. }
      apply handle_task_result_started in Hh.
      destruct (_ && _); simpl.
      { split; [eexists; by rewrite <- !app_assoc|].
        split; [by rewrite Hh|by apply suffix_cons_r]. }
      destruct (IH (mkSerial c' (s_quit_early st) (ran_world
        (_run_task_locally spawn format_exc task (s_world st)))
        (((s_trace st ++ [EvTaskStarted idx; EvReporterRunning idx;
                          EvReporterCommand idx])
          ++ [EvRunTask idx (ran_actions
                (_run_task_locally spawn format_exc task (s_world st)))])
         ++ [EvTaskResult result]))) as ([tail Ht] & Hst & Hs).
      split; [|split; [|by apply suffix_cons_r]].
      * eexists. rewrite Ht. simpl. by rewrite <- !app_assoc.
      * simpl in Hst. rewrite Hh in Hst. by etrans.
    + destruct (_handle_task_result _ _) as [c|e] eqn:Hh; simpl.
      2:{ split; [eexists; reflexivity|].
          split; [done|by apply suffix_cons_r]. }
      apply handle_task_result_started in Hh.
      destruct (IH (mkSerial c (s_quit_early st) (s_world st)
        (s_trace st ++ [EvTaskResult (parent_failed_result idx parent)])))
        as ([tail Ht] & Hst & Hs).
      split; [|split; [|by apply suffix_cons_r]].
      * eexists. rewrite Ht. simpl. by rewrite <- !app_assoc.
      * simpl in Hst. rewrite Hh in Hst. done.
Qed.

(** C1, amended: the parallel-local and the grid runner apply the whole gate
    to the index they pop: with a failed predecessor a parent-failed result
    is handed to the coordinator and the task is neither started nor put on
    a work channel; otherwise, with a predecessor not yet completed, the
    index goes back to the front of the deque and nothing else happens.  The
    serial runner applies the first rule only: with a failed predecessor it
    hands over the parent-failed result and goes on with the rest; without
    one it starts the task at once and, the index being that of a task,
    calls the executor on it right after, whatever [completed_tasks] holds,
    and it never puts an index back. *)
Theorem pre_dispatch_gate (idx : nat) (d : list nat) :
  (∀ st : ParallelLocalRunner World,
     p_task_idx_deque st = d ++ [idx] ->
     (Spec.failed_parents (p_ctx st) idx ≠ ∅ ->
      ∃ parent,
        parent ∈ Spec.failed_parents (p_ctx st) idx
        ∧ let r := parent_failed_result idx parent in
          let tr := p_trace st ++ [EvTaskResult r] in
          _fill_work_q_body dumps task_repr st
          = match _handle_task_result r (p_ctx st) with
            | Return c =>
                (mkParallel c (p_quit_early st) d (p_n_to_do st - 1)
                   (p_started st) (p_jobs st) (p_work_q st) tr, Return tt)
            | Raise e =>
                (mkParallel (p_ctx st) (p_quit_early st) d (p_n_to_do st)
                   (p_started st) (p_jobs st) (p_work_q st) tr, Raise e)
            end)
     ∧ (Spec.failed_parents (p_ctx st) idx = ∅ ->
        Spec.undone_parents (p_ctx st) idx ≠ ∅ ->
        _fill_work_q_body dumps task_repr st
        = (mkParallel (p_ctx st) (p_quit_early st) (idx :: d) (p_n_to_do st)
             (p_started st) (p_jobs st) (p_work_q st) (p_trace st),
           Return tt)))
  ∧ (∀ g : GridRunner World,
       g_task_idx_deque g = d ++ [idx] ->
       (Spec.failed_parents (g_ctx g) idx ≠ ∅ ->
        ∃ parent,
          parent ∈ Spec.failed_parents (g_ctx g) idx
          ∧ let r := parent_failed_result idx parent in
            let g' := g_log [EvTaskResult r] (g_set_deque d g) in
            _fill_work_qs_body dumps task_repr g
            = match _handle_task_result r (g_ctx g) with
              | Return c =>
                  (g_set_n_to_do (g_n_to_do g - 1) (g_set_ctx c g'),
                   Return tt)
              | Raise e => (g', Raise e)
              end)
       ∧ (Spec.failed_parents (g_ctx g) idx = ∅ ->
          Spec.undone_parents (g_ctx g) idx ≠ ∅ ->
          _fill_work_qs_body dumps task_repr g
          = (g_set_deque (idx :: d) g, Return tt)))
  ∧ (∀ st : SerialLocalRunner World,
       (Spec.failed_parents (s_ctx st) idx ≠ ∅ ->
        ∃ parent,
          parent ∈ Spec.failed_parents (s_ctx st) idx
          ∧ let r := parent_failed_result idx parent in
            let tr := s_trace st ++ [EvTaskResult r] in
            serial_run_tasks_loop spawn format_exc (idx :: d) st
            = match _handle_task_result r (s_ctx st) with
              | Return c =>
                  serial_run_tasks_loop spawn format_exc d
                    (mkSerial c (s_quit_early st) (s_world st) tr)
              | Raise e =>
                  (mkSerial (s_ctx st) (s_quit_early st) (s_world st) tr,
                   d, Raise e)
              end)
       ∧ (Spec.failed_parents (s_ctx st) idx = ∅ ->
          let out := serial_run_tasks_loop spawn format_exc (idx :: d) st in
          (∃ tail,
             s_trace out.1.1
             = s_trace st ++ [EvTaskStarted idx; EvReporterRunning idx;
                              EvReporterCommand idx] ++ tail)
          ∧ idx ∈ started_tasks (s_ctx out.1.1)
          ∧ out.1.2 `suffix_of` d
          ∧ ∀ task,
              tasks (s_ctx st) !! idx = Some task ->
              ∃ tail,
                s_trace out.1.1
                = s_trace st
                  ++ [EvTaskStarted idx; EvReporterRunning idx;
                      EvReporterCommand idx;
                      EvRunTask idx
                        (ran_actions (_run_task_locally spawn format_exc
                                        task (s_world st)))]
                  ++ tail)).
Proof.
  split; [|split].
  - intros st Hd. split.
    + intros Hf. destruct (elements_pick _ Hf) as (parent & xs & E & Hin).
      exists parent. split; [done|]. cbn zeta.
      unfold _fill_work_q_body. rewrite Hd, deque_pop_snoc.
      unfold Spec.failed_parents in E. rewrite E. reflexivity.
    + intros Hf Hu. unfold _fill_work_q_body. rewrite Hd, deque_pop_snoc.
      unfold Spec.failed_parents in Hf. rewrite Hf, elements_empty.
      unfold Spec.undone_parents in Hu. by rewrite (undone_test _ Hu).
  - intros g Hd. split.
    + intros Hf. destruct (elements_pick _ Hf) as (parent & xs & E & Hin).
      exists parent. split; [done|]. cbn zeta.
      unfold _fill_work_qs_body, _get_next_task. rewrite Hd, deque_pop_snoc.
      unfold Spec.failed_parents in E. cbn [g_set_deque g_ctx].
      rewrite E. cbn [g_log g_ctx].
      by destruct (_handle_task_result _ _).
    + intros Hf Hu. unfold _fill_work_qs_body, _get_next_task.
      rewrite Hd, deque_pop_snoc.
      unfold Spec.failed_parents in Hf. cbn [g_set_deque g_ctx].
      rewrite Hf, elements_empty.
      unfold Spec.undone_parents in Hu. by rewrite (undone_test _ Hu).
  - intros st. split.
    + intros Hf. destruct (elements_pick _ Hf) as (parent & xs & E & Hin).
      exists parent. split; [done|]. cbn zeta.
      cbn [serial_run_tasks_loop].
      unfold Spec.failed_parents in E. rewrite E. reflexivity.
    + intros Hf. cbn zeta. cbn [serial_run_tasks_loop].
      unfold Spec.failed_parents in Hf. rewrite Hf, elements_empty.
      set (c := _handle_task_started idx (s_ctx st)).
      assert (Hc : idx ∈ started_tasks c)
        by (subst c; cbn [_handle_task_started started_tasks];
            apply elem_of_union_l, elem_of_singleton_2, eq_refl).
      assert (Htasks : tasks c = tasks (s_ctx st)) by reflexivity.
      destruct (tasks c !! idx) as [task|] eqn:Htask; simpl.
      2:{ split; [by exists []|]. split; [done|]. split; [done|].
          intros task Ht. rewrite Htasks in Htask. congruence. }
      set (r := _run_task_locally spawn format_exc task (s_world st)).
      assert (Hsame : ∀ task',
                tasks (s_ctx st) !! idx = Some task' ->
                _run_task_locally spawn format_exc task' (s_world st) = r).
      { intros task' Ht. rewrite Htasks in Htask.
        rewrite Ht in Htask. by injection Htask as ->. }
      destruct (ran_value r) as [result|e]; simpl.
      2:{ split; [eexists; by rewrite <- app_assoc|].
          split; [done|]. split; [done|].
          intros task' Ht. rewrite (Hsame task' Ht). exists [].
          by rewrite <- app_assoc. }
      destruct (_handle_task_result result c) as [c'|e] eqn:Hh; simpl.
      2:{ split; [eexists; by rewrite <- !app_assoc|].
          split; [done|]. split; [done|].
          intros task' Ht. rewrite (Hsame task' Ht). eexists.
          by rewrite <- !app_assoc. }
      apply handle_task_result_started in Hh.
      destruct (_ && _); simpl.
      { split; [eexists; by rewrite <- !app_assoc|].
        split; [by rewrite Hh|]. split; [done|].
        intros task' Ht. rewrite (Hsame task' Ht). eexists.
        by rewrite <- !app_assoc. }
      destruct (serial_loop_grows d
        (mkSerial c' (s_quit_early st) (ran_world r)
           (((s_trace st ++ [EvTaskStarted idx; EvReporterRunning idx;
                             EvReporterCommand idx])
             ++ [EvRunTask idx (ran_actions r)])
            ++ [EvTaskResult result]))) as ([tail Ht] & Hst & Hs).
      split; [|split; [|split; [done|]]].
      * eexists. rewrite Ht. simpl. by rewrite <- !app_assoc.
      * simpl in Hst. rewrite Hh in Hst. by apply Hst.
      * intros task' Ht'. rewrite (Hsame task' Ht'). eexists.
        rewrite Ht. simpl. by rewrite <- !app_assoc.
Qed.

End GateFacts.

Lemma pre_dispatch_gate_witness :
  (∃ parent,
     parent ∈ Spec.failed_parents Examples.ctx_failed 1
     ∧ p_trace (_fill_work_q_body Examples.dumps Examples.task_repr
                  (Examples.parallel0 Examples.ctx_failed [1])).1
       = [EvTaskResult (parent_failed_result 1 parent)]
     ∧ p_work_q (_fill_work_q_body Examples.dumps Examples.task_repr
                   (Examples.parallel0 Examples.ctx_failed [1])).1 = [])
  ∧ _fill_work_q_body Examples.dumps Examples.task_repr
      (Examples.parallel0 Examples.ctx0 [1])
    = (Examples.parallel0 Examples.ctx0 [1], Return tt)
  ∧ (∃ parent,
       parent ∈ Spec.failed_parents Examples.ctx_failed 1
       ∧ g_trace (_fill_work_qs_body Examples.dumps Examples.task_repr
                    (Examples.grid_ready Examples.ctx_failed [1])).1
         = [EvTaskResult (parent_failed_result 1 parent)]
       ∧ _worker_qs (_fill_work_qs_body Examples.dumps Examples.task_repr
                       (Examples.grid_ready Examples.ctx_failed [1])).1
         = _worker_qs (Examples.grid_ready Examples.ctx_failed [1]))
  ∧ _fill_work_qs_body Examples.dumps Examples.task_repr
      (Examples.grid_ready Examples.ctx0 [1])
    = (Examples.grid_ready Examples.ctx0 [1], Return tt)
  ∧ (∃ parent,
       parent ∈ Spec.failed_parents Examples.ctx_failed 1
       ∧ s_trace (serial_run_tasks_loop Examples.spawn Examples.format_exc
                    [1] (mkSerial Examples.ctx_failed false 0 [])).1.1
         = [EvTaskResult (parent_failed_result 1 parent)])
  ∧ (∃ tail,
       s_trace (serial_run_tasks_loop Examples.spawn Examples.format_exc
                  [1] Examples.serial0).1.1
       = [EvTaskStarted 1; EvReporterRunning 1; EvReporterCommand 1] ++ tail)
  ∧ (∃ tail,
       s_trace (serial_run_tasks_loop Examples.spawn Examples.format_exc
                  [1] Examples.serial0).1.1
       = [] ++ [EvTaskStarted 1; EvReporterRunning 1; EvReporterCommand 1;
                EvRunTask 1
                  (ran_actions (_run_task_locally Examples.spawn
                                  Examples.format_exc Examples.bad_task 0))]
            ++ tail).
Proof.
  destruct (pre_dispatch_gate Examples.spawn Examples.format_exc
              Examples.dumps Examples.task_repr 1 []) as (HP & HG & HS).
  assert (Hfailed : Spec.failed_parents Examples.ctx_failed 1 ≠ ∅).
  { intros H. assert (H0 : 0 ∈ Spec.failed_parents Examples.ctx_failed 1)
      by (by vm_compute). rewrite H in H0. by apply not_elem_of_empty in H0. }
  assert (Hnone : Spec.failed_parents Examples.ctx0 1 = ∅) by reflexivity.
  assert (Hundone : Spec.undone_parents Examples.ctx0 1 ≠ ∅).
  { intros H. assert (H0 : 0 ∈ Spec.undone_parents Examples.ctx0 1)
      by (by vm_compute). rewrite H in H0. by apply not_elem_of_empty in H0. }
  split; [|split; [|split; [|split; [|split; [|split]]]]].
  - destruct (proj1 (HP (Examples.parallel0 Examples.ctx_failed [1]) eq_refl)
                Hfailed) as (parent & Hin & Heq).
    exists parent. split; [exact Hin|]. cbn zeta in Heq. rewrite Heq.
    split; reflexivity.
  - exact (proj2 (HP (Examples.parallel0 Examples.ctx0 [1]) eq_refl)
             Hnone Hundone).
  - destruct (proj1 (HG (Examples.grid_ready Examples.ctx_failed [1]) eq_refl)
                Hfailed) as (parent & Hin & Heq).
    exists parent. split; [exact Hin|]. cbn zeta in Heq. rewrite Heq.
    split; reflexivity.
  - exact (proj2 (HG (Examples.grid_ready Examples.ctx0 [1]) eq_refl)
             Hnone Hundone).
  - destruct (proj1 (HS (mkSerial Examples.ctx_failed false 0 [])) Hfailed)
      as (parent & Hin & Heq).
    exists parent. split; [exact Hin|]. cbn zeta in Heq. rewrite Heq.
    reflexivity.
  - destruct (proj2 (HS Examples.serial0) Hnone) as (Htail & _ & _ & _).
    exact Htail.
  - destruct (proj2 (HS Examples.serial0) Hnone) as (_ & _ & _ & Hrun).
    apply (Hrun Examples.bad_task). reflexivity.
Defined.

(** C1 as stated fails on the serial runner: task 1 is popped while its
    predecessor 0 is neither failed nor completed, and it is run. *)
Lemma serial_gate_counterexample :
  ¬ Spec.serial_defers Examples.spawn Examples.format_exc Examples.serial0 1.
Proof.
  intros H.
  assert (Hnone : Spec.failed_parents Examples.ctx0 1 = ∅) by reflexivity.
  assert (Hundone : Spec.undone_parents Examples.ctx0 1 ≠ ∅).
  { intros H'. assert (H0 : 0 ∈ Spec.undone_parents Examples.ctx0 1)
      by (by vm_compute). rewrite H' in H0.
    by apply not_elem_of_empty in H0. }
  apply (H Hnone Hundone [0; 1]).
  vm_compute. do 3 right. left.
Qed.

Section SerializationFacts.

Context {World : Type}.
Variable dumps : Task World -> outcome string.
Variable task_repr : Task World -> string.

Lemma fill_work_q_loop_raise (k : nat) :
  ∀ (n : nat) (st0 st st' : ParallelLocalRunner World) (e : exn),
    _fill_work_q_loop dumps task_repr k st0 = (st, Return tt) ->
    k < n ->
    _fill_work_q_body dumps task_repr st = (st', Raise e) ->
    _fill_work_q_loop dumps task_repr n st0 = (st', Raise e).
Proof.
  induction k as [|k IH]; intros n st0 st st' e Hk Hlt Hbody.
  - simpl in Hk. injection Hk as <-.
    destruct n as [|n]; [lia|]. simpl. by rewrite Hbody.
  - destruct n as [|n]; [lia|]. simpl in *.
    destruct (_fill_work_q_body dumps task_repr st0) as [st1 [[]|e1]];
      [|done].
    apply (IH n st1 st st' e Hk); [lia|done].
Qed.

Lemma parallel_run_tasks_loop_fill_raise
    (results : list (outcome TaskResult))
    (st st' : ParallelLocalRunner World) (e : exn) :
  _fill_work_q dumps task_repr st = (st', Raise e) ->
  parallel_run_tasks_loop dumps task_repr results st = (st', Raised e).
Proof. intros H. destruct results; simpl; by rewrite H. Qed.

(** C4, amended: when the gate lets the index at the back of the deque
    through and pickling its task raises, that round of [_fill_work_q]
    raises [ValueError] with the task and the cause in its message; the
    round only pops the index, so the task is neither put on the work
    channel nor marked started; and the error leaves [_fill_work_q] and
    [run_tasks] from that very state, without [cleanup()] being run.  [st0]
    is the state in which [run_tasks] enters [_fill_work_q], and [st] the
    state after [k] rounds of it. *)
Theorem serialization_failure (st0 st : ParallelLocalRunner World)
    (k idx : nat) (d : list nat) (task : Task World) (e : exn)
    (results : list (outcome TaskResult)) :
  _fill_work_q_loop dumps task_repr k st0 = (st, Return tt) ->
  k < length (p_task_idx_deque st0) ->
  p_task_idx_deque st = d ++ [idx] ->
  Spec.failed_parents (p_ctx st) idx = ∅ ->
  Spec.undone_parents (p_ctx st) idx = ∅ ->
  tasks (p_ctx st) !! idx = Some task ->
  dumps task = Raise e ->
  is_Exception e = true ->
  let err := ValueError ("Unable to serialize task `" +:+ task_repr task
                         +:+ "'. Original error was `" +:+ str_exn e
                         +:+ "'.") in
  ∃ st',
    _fill_work_q_body dumps task_repr st = (st', Raise err)
    ∧ p_work_q st' = p_work_q st
    ∧ p_ctx st' = p_ctx st
    ∧ p_trace st' = p_trace st
    ∧ p_task_idx_deque st' = d
    ∧ _fill_work_q dumps task_repr st0 = (st', Raise err)
    ∧ parallel_run_tasks_loop dumps task_repr results st0 = (st', Raised err).
Proof.
  intros Hk Hlt Hd Hf Hu Htask Hdumps Hexc err.
  assert (Hbody : _fill_work_q_body dumps task_repr st
                  = (mkParallel (p_ctx st) (p_quit_early st) d (p_n_to_do st)
                       (p_started st) (p_jobs st) (p_work_q st) (p_trace st),
                     Raise err)).
  { unfold _fill_work_q_body. rewrite Hd, deque_pop_snoc.
    unfold Spec.failed_parents in Hf. rewrite Hf, elements_empty.
    unfold Spec.undone_parents in Hu. rewrite Hu.
    rewrite bool_decide_eq_true_2 by done. simpl.
    by rewrite Htask, Hdumps, Hexc. }
  eexists. split; [exact Hbody|]. do 4 (split; [reflexivity|]).
  assert (Hfill : _fill_work_q dumps task_repr st0
                  = (mkParallel (p_ctx st) (p_quit_early st) d (p_n_to_do st)
                       (p_started st) (p_jobs st) (p_work_q st) (p_trace st),
                     Raise err)).
  { unfold _fill_work_q.
    by rewrite (fill_work_q_loop_raise k _ st0 st _ err Hk Hlt Hbody). }
  split; [exact Hfill|].
  by apply parallel_run_tasks_loop_fill_raise.
Qed.

End SerializationFacts.

Lemma serialization_failure_witness :
  ∃ st',
    _fill_work_q_body Examples.dumps Examples.task_repr
      (Examples.parallel0 Examples.ctx1 [1])
    = (st', Raise (ValueError ("Unable to serialize task `Task(bad)'. "
                               +:+ "Original error was `can't pickle "
                               +:+ "function objects'.")))
    ∧ p_work_q st' = []
    ∧ p_ctx st' = Examples.ctx1
    ∧ p_trace st' = []
    ∧ p_task_idx_deque st' = []
    ∧ _fill_work_q Examples.dumps Examples.task_repr
        (Examples.parallel0 Examples.ctx1 [1])
      = (st', Raise (ValueError ("Unable to serialize task `Task(bad)'. "
                                 +:+ "Original error was `can't pickle "
                                 +:+ "function objects'.")))
    ∧ parallel_run_tasks_loop Examples.dumps Examples.task_repr []
        (Examples.parallel0 Examples.ctx1 [1])
      = (st', Raised (ValueError ("Unable to serialize task `Task(bad)'. "
                                  +:+ "Original error was `can't pickle "
                                  +:+ "function objects'."))).
Proof.
  apply (serialization_failure Examples.dumps Examples.task_repr
           (Examples.parallel0 Examples.ctx1 [1])
           (Examples.parallel0 Examples.ctx1 [1])
           0 1 [] Examples.bad_task
           (OtherException "can't pickle function objects") []).
  - reflexivity.
  - simpl. lia.
  - reflexivity.
  - reflexivity.
  - reflexivity.
  - reflexivity.
  - reflexivity.
  - reflexivity.
Defined.

(** C4 as stated fails: task 0 is sent to the workers and completes, then
    pickling task 1 raises; the error reaches the caller of [run_tasks] with
    the workers started and neither [terminate()] nor [cleanup()] run. *)
Lemma serialization_counterexample :
  ¬ Spec.serialization_error_after_shutdown Examples.dumps Examples.task_repr
      [1; 0] [Return Examples.good_result]
      (Examples.parallel0 Examples.ctx0 []).
Proof.
  intros H.
  destruct (H (mkParallel
                 (mkRunContext [Examples.good_task; Examples.bad_task]
                    [(0, 1)] ∅ {[ 0 ]} {[ 0 ]}
                    [(["out.txt"; "log.txt"], [["2"]; ["0"; "1"]])])
                 false [] 1 true 2 [(PklBytes "good", PyNone)]
                 [EvTaskStarted 0; EvPut None (PklBytes "good") PyNone;
                  EvStartWorkers; EvTaskResult Examples.good_result])
              Examples.bad_task
              (OtherException "can't pickle function objects"))
    as [Hterm _].
  - vm_compute. reflexivity.
  - vm_compute in Hterm. 
    repeat (apply elem_of_cons in Hterm as [Hterm|Hterm]; [discriminate|]).
    by apply elem_of_nil in Hterm.
Qed.

Section PollingFacts.

Context {World : Type}.

Lemma cursor_polls_S (c p w : nat) :
  [EvPoll (c mod p)] ++ Spec.cursor_polls (S c) p w
  = Spec.cursor_polls c p (S w).
Proof.
  unfold Spec.cursor_polls. simpl. rewrite Nat.add_0_r. f_equal.
  rewrite <- seq_shift, <- list_fmap_compose. apply list_fmap_ext.
  intros _ k _. simpl. by rewrite Nat.add_succ_r.
Qed.

(** A pass over empty channels polls along the cursor and finds nothing. *)
Lemma get_result_pass_empty (n : nat) :
  ∀ g : GridRunner World,
    0 < length (_worker_qs g) ->
    Spec.channels_empty g ->
    _get_result_pass n g
    = (g_log (Spec.cursor_polls (_qcycle g) (length (_worker_qs g)) n)
         (g_set_qcycle (_qcycle g + n) g), Return None).
Proof.
  induction n as [|n IH]; intros g Hp Hempty.
  - simpl. destruct g. unfold g_log, g_set_qcycle, Spec.cursor_polls. simpl.
    by rewrite Nat.add_0_r, app_nil_r.
  - cbn [_get_result_pass].
    destruct (lookup_lt_is_Some_2 (_worker_qs g)
                (_qcycle g mod length (_worker_qs g))) as [[name q] Hq].
    { apply Nat.mod_upper_bound. lia. }
    rewrite Hq.
    assert (Hres : result_q q = []).
    { unfold Spec.channels_empty in Hempty. rewrite Forall_lookup in Hempty.
      apply (Hempty _ _ Hq). }
    rewrite Hres, IH; [|done|done].
    destruct g. unfold g_log, g_set_qcycle. simpl. f_equal. f_equal.
    + lia.
    + by rewrite <- app_assoc, cursor_polls_S.
Qed.

(** A pass returns the head of the first channel along the cursor that is
    not empty, provided the cursor reaches it within the rounds of the
    pass. *)
Lemma get_result_pass_found (k : nat) :
  ∀ (n : nat) (g : GridRunner World) (name : string) (q : QPair)
    (ret : TaskResult) (rest : list TaskResult),
    k < n ->
    (∀ j, j < k ->
       ∃ name' q',
         _worker_qs g !! ((_qcycle g + j) mod length (_worker_qs g))
         = Some (name', q') ∧ result_q q' = []) ->
    _worker_qs g !! ((_qcycle g + k) mod length (_worker_qs g))
    = Some (name, q) ->
    result_q q = ret :: rest ->
    _get_result_pass n g
    = (g_set_worker_qs
         (<[ (_qcycle g + k) mod length (_worker_qs g)
             := (name, mkQPair (work_q q) rest) ]> (_worker_qs g))
         (g_log (Spec.cursor_polls (_qcycle g) (length (_worker_qs g)) (S k))
            (g_set_qcycle (_qcycle g + S k) g)),
       Return (Some ret)).
Proof.
  induction k as [|k IH]; intros n g name q ret rest Hlt Hbefore Hq Hres.
  - destruct n as [|n]; [lia|]. cbn [_get_result_pass].
    rewrite Nat.add_0_r in Hq. rewrite Hq, Hres.
    destruct g. unfold g_log, g_set_qcycle, g_set_worker_qs,
      Spec.cursor_polls. simpl. rewrite !Nat.add_0_r.
    do 3 f_equal. lia.
  - destruct n as [|n]; [lia|]. cbn [_get_result_pass].
    destruct (Hbefore 0) as (name0 & q0 & Hq0 & Hres0); [lia|].
    rewrite Nat.add_0_r in Hq0. rewrite Hq0, Hres0.
    rewrite (IH n _ name q ret rest).
    + destruct g. unfold g_log, g_set_qcycle, g_set_worker_qs. simpl.
      rewrite <- app_assoc, cursor_polls_S.
      rewrite !Nat.add_succ_r. reflexivity.
    + lia.
    + intros j Hj. destruct (Hbefore (S j)) as (n' & q' & Hq' & Hres');
        [lia|].
      exists n', q'. split; [|done]. destruct g. simpl in *.
      by rewrite Nat.add_succ_r in Hq'.
    + destruct g. simpl in *. by rewrite Nat.add_succ_r in Hq.
    + done.
Qed.

Lemma polls_of_app (i : nat) (xs ys : list Event) :
  Spec.polls_of i (xs ++ ys) = Spec.polls_of i xs + Spec.polls_of i ys.
Proof. unfold Spec.polls_of. by rewrite List.filter_app, length_app. Qed.

Lemma cursor_polls_snoc (c p w : nat) :
  Spec.cursor_polls c p (S w)
  = Spec.cursor_polls c p w ++ [EvPoll ((c + w) mod p)].
Proof. unfold Spec.cursor_polls. by rewrite seq_S, fmap_app. Qed.

(** Moving the start of a full turn of the cursor by one step rotates its
    polls. *)
Lemma polls_of_full_turn_shift (i c p : nat) :
  0 < p ->
  Spec.polls_of i (Spec.cursor_polls (S c) p p)
  = Spec.polls_of i (Spec.cursor_polls c p p).
Proof.
  intros Hp. destruct p as [|w]; [lia|].
  rewrite <- (cursor_polls_S c (S w) w), (cursor_polls_snoc (S c) (S w) w).
  rewrite !polls_of_app.
  replace ((S c + w) mod S w) with (c mod S w); [lia|].
  replace (S c + w) with (c + 1 * S w) by lia.
  by rewrite Nat.Div0.mod_add.
Qed.

Lemma polls_of_seq (i n : nat) :
  ∀ a, Spec.polls_of i (EvPoll <$> seq a n)
       = if bool_decide (a ≤ i < a + n) then 1 else 0.
Proof.
  induction n as [|n IH]; intros a.
  - simpl. rewrite bool_decide_eq_false_2; [done|lia].
  - cbn [seq]. rewrite fmap_cons.
    change (EvPoll a :: (EvPoll <$> seq (S a) n))
      with ([EvPoll a] ++ (EvPoll <$> seq (S a) n)).
    rewrite polls_of_app, IH. unfold Spec.polls_of. simpl.
    destruct (Nat.eqb_spec i a) as [->|Hne]; simpl;
      repeat case_bool_decide; lia.
Qed.

(** A full turn of the cursor polls every channel once, wherever it
    starts. *)
Lemma polls_of_full_turn (i c p : nat) :
  i < p -> Spec.polls_of i (Spec.cursor_polls c p p) = 1.
Proof.
  intros Hi. induction c as [|c IH].
  - assert (Heq : Spec.cursor_polls 0 p p = EvPoll <$> seq 0 p).
    { unfold Spec.cursor_polls. apply list_fmap_ext. intros j k Hk.
      apply lookup_seq in Hk as [-> Hj]. simpl.
      by rewrite Nat.mod_small. }
    rewrite Heq, polls_of_seq. rewrite bool_decide_eq_true_2; [done|lia].
  - rewrite polls_of_full_turn_shift; [done|lia].
Qed.


End PollingFacts.



Section ExecuteFacts.

Import Commands.

Variable RUNNER_MAP : gmap string RunnerClass.
Variable MRunner_available : bool.

Lemma list_new_append_lookup (xs : list value) (x : value) (h : store) :
  list_append (length h) x (h ++ [xs]) !! length h = Some (xs ++ [x]).
Proof.
  unfold list_append.
  rewrite lookup_app_r by lia. rewrite Nat.sub_diag. simpl.
  rewrite list_lookup_insert_eq; [done|]. rewrite length_app. simpl. lia.
Qed.

(** Without worker processes the constructor gets the six arguments. *)
Lemma execute_normal_args (dep_class dep_file reporter_obj : value)
    (opt_runner : string) (verbosity : value) (always continue_ : bool)
    (num_process : Z) (par_type : string) (h : store) (call : RunnerCall) :
  (num_process <= 0)%Z ->
  (_execute RUNNER_MAP MRunner_available dep_class dep_file reporter_obj
     opt_runner verbosity always continue_ num_process par_type h).2
  = Return call ->
  call_args call = [dep_class; dep_file; reporter_obj; VBool continue_;
                    VBool always; verbosity].
Proof.
  intros Hn. unfold _execute, list_new.
  destruct (Z.ltb_spec 0 num_process) as [?|_]; [lia|].
  destruct (match RUNNER_MAP !! opt_runner with
            | Some cls => Return (Some cls)
            | None => _discover_runner_class MRunner_available num_process
                        par_type
            end) as [[cls|]|e]; cbn [snd]; intros [= <-]; cbn [call_args].
  unfold list_unpack. rewrite lookup_app_r by lia.
  by rewrite Nat.sub_diag.
Qed.

(** C8, as the code has it: with [num_process > 0] the list [run_args] is
    appended to itself.  After [_execute] the list object holds the six
    arguments and then a reference to that same object, and a constructor
    that is reached is called with these seven arguments. *)
Theorem execute_appends_run_args_to_itself
    (dep_class dep_file reporter_obj : value)
    (opt_runner : string) (verbosity : value) (always continue_ : bool)
    (num_process : Z) (par_type : string) (h : store) :
  (0 < num_process)%Z ->
  let normal := [dep_class; dep_file; reporter_obj; VBool continue_;
                 VBool always; verbosity] in
  let out := _execute RUNNER_MAP MRunner_available dep_class dep_file
               reporter_obj opt_runner verbosity always continue_
               num_process par_type h in
  out.1 !! length h = Some (normal ++ [VList (length h)])
  ∧ ∀ call, out.2 = Return call ->
      call_run_args call = length h
      ∧ call_args call = normal ++ [VList (call_run_args call)]
      ∧ VList (call_run_args call) ∈ call_args call.
Proof.
  intros Hn. cbn zeta. unfold _execute, list_new.
  destruct (Z.ltb_spec 0 num_process) as [_|?]; [|lia].
  pose proof (list_new_append_lookup
                [dep_class; dep_file; reporter_obj; VBool continue_;
                 VBool always; verbosity] (VList (length h)) h) as Hself.
  destruct (match RUNNER_MAP !! opt_runner with
            | Some cls => Return (Some cls)
            | None => _discover_runner_class MRunner_available num_process
                        par_type
            end) as [[cls|]|e]; cbn [fst snd]; (split; [exact Hself|]);
    intros call [= <-]; cbn [call_args call_run_args].
  unfold list_unpack. rewrite Hself. cbn [default]. split; [done|].
  split; [done|]. set_solver.
Qed.

End ExecuteFacts.

Lemma execute_appends_run_args_to_itself_witness :
  ∃ h' call,
    Commands._execute CommandExamples.RUNNER_MAP true
      CommandExamples.dep_class CommandExamples.dep_file
      CommandExamples.reporter_obj "MRunner" Commands.VNone false false 1
      "process" []
    = (h', Return call)
    ∧ Commands.call_class call = Commands.MRunner
    ∧ Commands.call_args call
      = [CommandExamples.dep_class; CommandExamples.dep_file;
         CommandExamples.reporter_obj; Commands.VBool false;
         Commands.VBool false; Commands.VNone; Commands.VList 0]
    ∧ h' !! 0 = Some (Commands.call_args call).
Proof.
  destruct (execute_appends_run_args_to_itself CommandExamples.RUNNER_MAP
              true CommandExamples.dep_class CommandExamples.dep_file
              CommandExamples.reporter_obj "MRunner" Commands.VNone false
              false 1 "process" []) as [Hstore Hcall].
  - reflexivity.
  - eexists _, _. split; [reflexivity|]. split; [reflexivity|].
    split; [reflexivity|]. exact Hstore.
Defined.

(** * Further properties of the executor *)

Section ExecutorMore.

Context {World : Type}.
Variable spawn : string -> Task World -> World -> World * Z.
Variable format_exc : exn -> string.

Lemma get_task_result_loop_app (task : Task World) (w : World)
    (pre : list (Target World)) :
  Forall (fun t => ∃ c, compare t w = Return c) pre ->
  ∀ ts ks cs,
    _get_task_result_loop format_exc task w (pre ++ ts) ks cs
    = _get_task_result_loop format_exc task w ts
        (ks ++ (name <$> pre)) (cs ++ (Spec.fingerprint w <$> pre)).
Proof.
  induction 1 as [|t pre [c Hc] _ IH]; intros ts ks cs.
  - by rewrite !fmap_nil, !app_nil_r.
  - cbn [app _get_task_result_loop]. rewrite Hc, IH, !fmap_cons.
    unfold Spec.fingerprint at 2. rewrite Hc. by rewrite <- !app_assoc.
Qed.

(** When the actions succeed, the targets before [t] are fingerprinted and
    the [compare()] of [t] raises an exception of class [Exception], the
    executor returns a failed result: the error names [t] and ends with the
    traceback, keys and fingerprints are absent although the targets before
    [t] were fingerprinted, and every action was called.  An exception
    outside class [Exception] is not covered: the handler is
    [except Exception]. *)
Theorem run_task_locally_target_failure (task : Task World)
    (pre post : list (Target World)) (t : Target World) (e : exn)
    (w w' : World) :
  Spec.actions_succeed task (apply_sh spawn (actions task)) w w' ->
  targets task = pre ++ t :: post ->
  Forall (fun t' => ∃ c, compare t' w' = Return c) pre ->
  compare t w' = Raise e ->
  is_Exception e = true ->
  _run_task_locally spawn format_exc task w
  = mkRan w' (seq 0 (length (actions task)))
      (Return (mkTaskResult (Some (t_task_no task))
                 (Some ("Failed to produce target `" +:+ target_repr t
                        +:+ "'. Original exception: " +:+ format_exc e))
                 None None)).
Proof.
  intros Hacts Htargs Hpre Hraise Hexc. unfold _run_task_locally.
  rewrite (run_task_locally_loop_ok format_exc _ _ _ _ Hacts). simpl.
  unfold apply_sh. rewrite length_map. f_equal.
  unfold _get_task_result. rewrite Htargs.
  rewrite (get_task_result_loop_app _ _ _ Hpre).
  cbn [_get_task_result_loop]. by rewrite Hraise, Hexc.
Qed.

Lemma append_literal_truthy (c : ascii) (s t : string) :
  negb (String.eqb (String c s +:+ t) EmptyString) = true.
Proof. reflexivity. Qed.

Lemma get_task_result_loop_shape (task : Task World) (w : World)
    (ts : list (Target World)) :
  ∀ ks cs r,
    length ks = length cs ->
    _get_task_result_loop format_exc task w ts ks cs = Return r ->
    task_no r = Some (t_task_no task)
    ∧ ((error r = None
        ∧ ∃ keys cmps,
            dep_keys r = Some keys ∧ dep_compares r = Some cmps
            ∧ length keys = length ks + length ts
            ∧ length cmps = length ks + length ts)
       ∨ (error_truthy r = true
          ∧ dep_keys r = None ∧ dep_compares r = None)).
Proof.
  induction ts as [|t ts IH]; intros ks cs r Hlen;
    cbn [_get_task_result_loop].
  - intros [= <-]. split; [done|]. left. split; [done|].
    exists ks, cs. simpl. repeat split; lia.
  - destruct (compare t w) as [c|e].
    + intros Hr.
      assert (Hlen' : length (ks ++ [name t]) = length (cs ++ [c]))
        by (rewrite !length_app, Hlen; reflexivity).
      destruct (IH (ks ++ [name t]) (cs ++ [c]) r Hlen' Hr)
        as [Hno [(Herr & keys & cmps & Hk & Hc & Hlk & Hlc)|Hfail]].
      * split; [done|]. left. split; [done|]. exists keys, cmps.
        rewrite length_app in Hlk, Hlc. simpl in *. repeat split; try done; lia.
      * split; [done|]. by right.
    + destruct (is_Exception e); [|done]. intros [= <-].
      split; [done|]. right. repeat split; reflexivity.
Qed.

Lemma run_task_locally_loop_shape (task : Task World)
    (fs : list (ActionFunc World)) :
  ∀ i w ran r,
    ran_value (_run_task_locally_loop format_exc task fs i w ran) = Return r ->
    task_no r = Some (t_task_no task)
    ∧ ((error r = None
        ∧ ∃ keys cmps,
            dep_keys r = Some keys ∧ dep_compares r = Some cmps
            ∧ length keys = length (targets task)
            ∧ length cmps = length (targets task))
       ∨ (error_truthy r = true
          ∧ dep_keys r = None ∧ dep_compares r = None)).
Proof.
  induction fs as [|f fs IH]; intros i w ran r;
    cbn [_run_task_locally_loop].
  - simpl. intros Hr.
    apply (get_task_result_loop_shape _ _ _ [] [] r eq_refl) in Hr. done.
  - destruct (f task w) as [w' [[]|e]].
    + apply IH.
    + destruct (is_Exception e); simpl; [|done]. intros [= <-].
      split; [done|]. right. repeat split; reflexivity.
Qed.

(** Every result the executor returns carries the number of its task and
    has one of two shapes: no error, with one key and one fingerprint per
    target; or an error that counts as true, with neither keys nor
    fingerprints. *)
Theorem run_task_locally_result_shape (task : Task World) (w : World)
    (r : TaskResult) :
  ran_value (_run_task_locally spawn format_exc task w) = Return r ->
  task_no r = Some (t_task_no task)
  ∧ ((error r = None
      ∧ ∃ keys cmps,
          dep_keys r = Some keys ∧ dep_compares r = Some cmps
          ∧ length keys = length (targets task)
          ∧ length cmps = length (targets task))
     ∨ (error_truthy r = true
        ∧ dep_keys r = None ∧ dep_compares r = None)).
Proof. apply run_task_locally_loop_shape. Qed.

Lemma run_task_locally_loop_order (task : Task World)
    (fs : list (ActionFunc World)) :
  ∀ i w ran,
    ∃ k, k ≤ length fs
         ∧ ran_actions (_run_task_locally_loop format_exc task fs i w ran)
           = ran ++ seq i k.
Proof.
  induction fs as [|f fs IH]; intros i w ran; cbn [_run_task_locally_loop].
  - exists 0. simpl. split; [lia|by rewrite app_nil_r].
  - destruct (f task w) as [w' [[]|e]].
    + destruct (IH (S i) w' (ran ++ [i])) as (k & Hk & Heq).
      exists (S k). simpl. split; [lia|]. rewrite Heq.
      by rewrite <- app_assoc.
    + exists 1. split; [simpl; lia|]. by destruct (is_Exception e).
Qed.

(** Whatever happens, the executor calls the actions in order, each at most
    once and without skipping one: the indices it called are [0 .. k-1] for
    some [k] up to the number of actions. *)
Theorem run_task_locally_action_order (task : Task World) (w : World) :
  ∃ k, k ≤ length (actions task)
       ∧ ran_actions (_run_task_locally spawn format_exc task w) = seq 0 k.
Proof.
  unfold _run_task_locally.
  destruct (run_task_locally_loop_order task (apply_sh spawn (actions task))
              0 w []) as (k & Hk & Heq).
  exists k. split; [|done]. unfold apply_sh in Hk. by rewrite length_map in Hk.
Qed.

(** [KeyboardInterrupt] and [SystemExit] are not turned into a result: when
    an action raises one of them after the actions before it succeeded, the
    exception leaves the executor, and no later action is called. *)
Theorem run_task_locally_signal (task : Task World)
    (pre post : list (ActionFunc World)) (f : ActionFunc World)
    (e : exn) (w w1 w2 : World) :
  apply_sh spawn (actions task) = pre ++ f :: post ->
  Spec.actions_succeed task pre w w1 ->
  f task w1 = (w2, Raise e) ->
  is_Exception e = false ->
  _run_task_locally spawn format_exc task w
  = mkRan w2 (seq 0 (S (length pre))) (Raise e).
Proof.
  intros Hfs Hpre Hf Hexc. unfold _run_task_locally. rewrite Hfs.
  rewrite (run_task_locally_loop_app format_exc _ _ _ _ _ Hpre).
  cbn [_run_task_locally_loop]. rewrite Hf, Hexc.
  by rewrite seq_S.
Qed.

End ExecutorMore.

Lemma run_task_locally_target_failure_witness :
  _run_task_locally Examples.spawn Examples.format_exc
    Examples.untargeted_task 0
  = mkRan 1 [0]
      (Return (mkTaskResult (Some 2)
                 (Some ("Failed to produce target `TrackedFile(missing.txt)"
                        +:+ "'. Original exception: "
                        +:+ "Traceback (most recent call last): No such file"))
                 None None)).
Proof.
  apply (run_task_locally_target_failure Examples.spawn Examples.format_exc
           Examples.untargeted_task [Examples.out_txt] [Examples.log_txt]
           Examples.missing_txt (OtherException "No such file") 0 1).
  - eapply Spec.succeed_cons; [reflexivity|]. apply Spec.succeed_nil.
  - reflexivity.
  - repeat constructor. eexists; reflexivity.
  - reflexivity.
  - reflexivity.
Defined.

Lemma run_task_locally_result_shape_witness :
  task_no (exception_result
             (TaskFailed (action_error_msg Examples.format_exc 1
                            (OtherException "boom")) 1)) = Some 1
  ∧ ((error (exception_result
               (TaskFailed (action_error_msg Examples.format_exc 1
                              (OtherException "boom")) 1)) = None
      ∧ ∃ keys cmps,
          dep_keys (exception_result
                      (TaskFailed (action_error_msg Examples.format_exc 1
                                     (OtherException "boom")) 1)) = Some keys
          ∧ dep_compares (exception_result
                            (TaskFailed (action_error_msg Examples.format_exc
                                           1 (OtherException "boom")) 1))
            = Some cmps
          ∧ length keys = 1 ∧ length cmps = 1)
     ∨ (error_truthy (exception_result
                        (TaskFailed (action_error_msg Examples.format_exc 1
                                       (OtherException "boom")) 1)) = true
        ∧ dep_keys (exception_result
                      (TaskFailed (action_error_msg Examples.format_exc 1
                                     (OtherException "boom")) 1)) = None
        ∧ dep_compares (exception_result
                          (TaskFailed (action_error_msg Examples.format_exc 1
                                         (OtherException "boom")) 1)) = None)).
Proof.
  apply (run_task_locally_result_shape Examples.spawn Examples.format_exc
           Examples.bad_task 0).
  reflexivity.
Defined.

Lemma run_task_locally_signal_witness :
  _run_task_locally Examples.spawn Examples.format_exc
    Examples.interrupted_task 0
  = mkRan 1 [0; 1] (Raise KeyboardInterrupt).
Proof.
  apply (run_task_locally_signal Examples.spawn Examples.format_exc
           Examples.interrupted_task
           [fun _ w => (S w, Return tt)]
           [fun _ w => (S w, Return tt)]
           (fun _ w => (w, Raise KeyboardInterrupt))
           KeyboardInterrupt 0 1 1).
  - reflexivity.
  - eapply Spec.succeed_cons; [reflexivity|]. apply Spec.succeed_nil.
  - reflexivity.
  - reflexivity.
Defined.

(** * Further properties of the worker loop *)

Lemma count_events_app (f : Event -> bool) (xs ys : list Event) :
  Spec.count_events f (xs ++ ys)
  = Spec.count_events f xs + Spec.count_events f ys.
Proof. unfold Spec.count_events. by rewrite List.filter_app, length_app. Qed.

Ltac count_step :=
  simpl in *;
  unfold Spec.results_delivered, Spec.count_events in *;
  rewrite ?List.filter_app, ?length_app in *;
  simpl in *; lia.

Section WorkerMore.

Context {World : Type}.
Variable loads : string -> outcome (Task World).
Variable run_task :
  Task World -> pyval -> World -> Ran World (outcome TaskResult).

Lemma report_events_balanced (reporter lock : bool) (n : nat) :
  Spec.count_events Spec.is_acquire (report_events reporter lock n)
  = Spec.count_events Spec.is_release (report_events reporter lock n).
Proof. by destruct reporter, lock. Qed.


(** The worker answers every payload it is given: when no payload before
    the stop sentinel is itself a sentinel, unpickling fails only with
    exceptions of class [Exception] and running an unpickled task returns,
    the worker stops at the sentinel having put exactly one result per
    payload on the result channel, behind what was there. *)
Theorem worker_one_result_per_payload (payloads : list (Pkl * pyval))
    (rest : list (outcome (Pkl * pyval))) (reporter lock : bool) :
  Forall (fun p => is_stop p.1 = false) payloads ->
  (∀ b e, loads b = Raise e -> is_Exception e = true) ->
  (∀ b task, loads b = Return task ->
     ∀ extra w, ∃ r, ran_value (run_task task extra w) = Return r) ->
  ∀ st : Worker World,
    let out := worker_run_loop loads run_task
                 ((Return <$> payloads) ++ Return stop_sentinel :: rest)
                 reporter lock st in
    out.2 = Stopped
    ∧ ∃ rs, w_result_q out.1 = w_result_q st ++ rs
            ∧ length rs = length payloads.
Proof.
  intros Hpay Hloads Hrun.
  induction Hpay as [|[pkl extra] payloads Hstop _ IH]; intros st; cbn zeta.
  - simpl. split; [done|]. exists []. by rewrite app_nil_r.
  - rewrite fmap_cons. cbn [app worker_run_loop]. simpl in Hstop.
    rewrite Hstop.
    destruct (pickle_loads loads pkl) as [task|e] eqn:Hl.
    + assert (Hb : ∃ b, loads b = Return task).
      { destruct pkl as [d|b]; simpl in Hl; [done|]. by exists b. }
      destruct Hb as [b Hb].
      destruct (Hrun b task Hb extra
                  (w_world (w_log (report_events reporter lock
                     (t_task_no task)) (w_log [EvLoads] (w_log [EvGet] st)))))
        as [r Hr].
      rewrite Hr.
      match goal with
      | |- context [worker_run_loop _ _ _ _ _ ?s] =>
          destruct (IH s) as [Hexit (rs & Hq & Hlen)]
      end.
      split; [exact Hexit|]. exists (r :: rs). rewrite Hq. simpl.
      split; [by rewrite <- app_assoc|by rewrite Hlen].
    + assert (Hexc : is_Exception e = true).
      { destruct pkl as [d|b]; simpl in Hl.
        - by injection Hl as <-.
        - by apply (Hloads b). }
      rewrite Hexc.
      match goal with
      | |- context [worker_run_loop _ _ _ _ _ ?s] =>
          destruct (IH s) as [Hexit (rs & Hq & Hlen)]
      end.
      split; [exact Hexit|]. exists (exception_result e :: rs). rewrite Hq.
      simpl. split; [by rewrite <- app_assoc|by rewrite Hlen].
Qed.

(** A dictionary that is not a stop sentinel (no [stop] entry, or one that
    counts as false) is not a pickle: the worker answers it with an error
    result that names no task and goes on with the next payload. *)
Theorem worker_dict_payload (d : gmap string pyval) (extra : pyval)
    (gets : list (outcome (Pkl * pyval))) (reporter lock : bool)
    (st : Worker World) :
  is_stop (PklDict d) = false ->
  ∃ r,
    task_no r = None ∧ error r ≠ None
    ∧ dep_keys r = None ∧ dep_compares r = None
    ∧ worker_run_loop loads run_task (Return (PklDict d, extra) :: gets)
        reporter lock st
      = worker_run_loop loads run_task gets reporter lock
          (mkWorker (w_world st) (w_result_q st ++ [r])
             (w_trace st ++ [EvGet; EvLoads; EvResultPut r])).
Proof.
  intros Hstop. eexists. repeat split; cycle 4.
  - cbn [worker_run_loop]. rewrite Hstop. cbn [pickle_loads is_Exception].
    unfold w_put_nowait, w_log. cbn [w_world w_result_q w_trace].
    rewrite <- !app_assoc. reflexivity.
  - reflexivity.
  - done.
  - reflexivity.
  - reflexivity.
Qed.

End WorkerMore.

Lemma worker_one_result_per_payload_witness :
  (worker_run_loop Examples.loads Examples.run_task
     ((Return <$> [(PklBytes "good", PyNone); (PklBytes "junk", PyNone);
                   (PklDict ∅, PyNone); (PklBytes "bad", PyNone)])
      ++ Return stop_sentinel :: [Return (PklBytes "good", PyNone)])
     true true Examples.idle_worker).2 = Stopped
  ∧ ∃ rs,
      w_result_q
        (worker_run_loop Examples.loads Examples.run_task
           ((Return <$> [(PklBytes "good", PyNone); (PklBytes "junk", PyNone);
                         (PklDict ∅, PyNone); (PklBytes "bad", PyNone)])
            ++ Return stop_sentinel :: [Return (PklBytes "good", PyNone)])
           true true Examples.idle_worker).1
      = [] ++ rs
      ∧ length rs = 4.
Proof.
  apply (worker_one_result_per_payload Examples.loads Examples.run_task
           [(PklBytes "good", PyNone); (PklBytes "junk", PyNone);
            (PklDict ∅, PyNone); (PklBytes "bad", PyNone)]
           [Return (PklBytes "good", PyNone)] true true).
  - repeat constructor.
  - intros b e. unfold Examples.loads.
    destruct (String.eqb b "good"); [discriminate|].
    destruct (String.eqb b "bad"); [discriminate|].
    intros [= <-]. reflexivity.
  - intros b task. unfold Examples.loads.
    destruct (String.eqb b "good").
    + intros [= <-] extra w. eexists. reflexivity.
    + destruct (String.eqb b "bad"); [|discriminate].
      intros [= <-] extra w. eexists. reflexivity.
Defined.

Lemma worker_dict_payload_witness :
  ∃ r,
    task_no r = None ∧ error r ≠ None
    ∧ dep_keys r = None ∧ dep_compares r = None
    ∧ worker_run_loop Examples.loads Examples.run_task
        [Return (PklDict {[ "stop" := PyInt 0 ]}, PyNone);
         Return stop_sentinel] true true Examples.idle_worker
      = worker_run_loop Examples.loads Examples.run_task
          [Return stop_sentinel] true true
          (mkWorker 0 ([] ++ [r]) ([] ++ [EvGet; EvLoads; EvResultPut r])).
Proof.
  apply (worker_dict_payload Examples.loads Examples.run_task
           {[ "stop" := PyInt 0 ]} PyNone [Return stop_sentinel] true true
           Examples.idle_worker).
  reflexivity.
Defined.

(** * Further properties of the serial runner *)

Section SerialMore.

Context {World : Type}.
Variable spawn : string -> Task World -> World -> World * Z.
Variable format_exc : exn -> string.

Lemma serial_loop_accounting (pops : list nat) :
  ∀ (st st' : SerialLocalRunner World) (rest : list nat),
    serial_run_tasks_loop spawn format_exc pops st = (st', rest, Return tt) ->
    Spec.results_delivered (s_trace st') + length rest
    = Spec.results_delivered (s_trace st) + length pops
    ∧ (rest = []
       ∨ (s_quit_early st = true
          ∧ ∃ tr r, s_trace st' = tr ++ [EvTaskResult r]
                    ∧ error_truthy r = true)).
Proof.
  unfold Spec.results_delivered.
  induction pops as [|idx pops IH]; intros st st' rest;
    cbn [serial_run_tasks_loop].
  - intros [= <- <-]. split; [done|by left].
  - destruct (elements _) as [|parent ?].
    + destruct (tasks _ !! idx) as [task|]; [|done].
      destruct (ran_value _) as [result|e]; [|done].
      destruct (_handle_task_result result _) as [c'|e]; [|done].
      destruct (s_quit_early st) eqn:Hq; cbn [andb].
      * destruct (error_truthy result) eqn:Herr.
        -- intros [= <- <-]. split; [count_step|].
           right. split; [done|]. eexists _, result. by split.
        -- intros Hrun. apply IH in Hrun as [Hcount Hrest].
           split; [count_step|]. destruct Hrest as [->|[_ Hlast]]; [by left|].
           right. by split.
      * intros Hrun. apply IH in Hrun as [Hcount Hrest].
        split; [count_step|]. destruct Hrest as [->|[Hq' _]]; [by left|].
        simpl in Hq'. congruence.
    + destruct (_handle_task_result _ _) as [c|e]; [|done].
      intros Hrun. apply IH in Hrun as [Hcount Hrest].
      split; [count_step|]. destruct Hrest as [->|[Hq' Hlast]]; [by left|].
      right. by split.
Qed.

(** When the serial runner returns, every index it took from the deque had
    exactly one result handed to the coordinator, what is left in the deque
    is its left part, and something is left only when [quit_early] is set
    and the last thing the runner did was to hand over a result whose error
    counts as true. *)
Theorem serial_run_tasks_accounting (task_idx_deque rest : list nat)
    (st st' : SerialLocalRunner World) :
  serial_run_tasks spawn format_exc task_idx_deque st
  = (st', rest, Return tt) ->
  Spec.results_delivered (s_trace st') + length rest
  = Spec.results_delivered (s_trace st) + length task_idx_deque
  ∧ rest `prefix_of` task_idx_deque
  ∧ (rest = []
     ∨ (s_quit_early st = true
        ∧ ∃ tr r, s_trace st' = tr ++ [EvTaskResult r]
                  ∧ error_truthy r = true)).
Proof.
  unfold serial_run_tasks.
  pose proof (serial_loop_grows spawn format_exc (rev task_idx_deque) st)
    as (_ & _ & Hsuffix).
  destruct (serial_run_tasks_loop spawn format_exc (rev task_idx_deque) st)
    as [[st1 rest1] o] eqn:Hloop.
  intros [= <- <- ->]. simpl in Hsuffix.
  apply serial_loop_accounting in Hloop as [Hcount Hrest].
  rewrite !length_rev in *. split; [done|]. split.
  - destruct Hsuffix as [k Hk]. exists (rev k).
    by rewrite <- (rev_involutive task_idx_deque), Hk, rev_app_distr.
  - destruct Hrest as [->|Hq]; [by left|by right].
Qed.

End SerialMore.

Lemma serial_run_tasks_accounting_witness :
  Spec.results_delivered
    (s_trace (serial_run_tasks Examples.spawn Examples.format_exc [0; 1]
                (mkSerial Examples.ctx_quit true 0 [])).1.1) + 1
  = Spec.results_delivered [] + 2
  ∧ [0] `prefix_of` [0; 1]
  ∧ ([0] = []
     ∨ (true = true
        ∧ ∃ tr r,
            s_trace (serial_run_tasks Examples.spawn Examples.format_exc
                       [0; 1] (mkSerial Examples.ctx_quit true 0 [])).1.1
            = tr ++ [EvTaskResult r]
            ∧ error_truthy r = true)).
Proof.
  apply (serial_run_tasks_accounting Examples.spawn Examples.format_exc
           [0; 1] [0] (mkSerial Examples.ctx_quit true 0 [])).
  vm_compute. reflexivity.
Defined.

(** * Further properties of the parallel-local runner *)

Section ParallelMore.

Context {World : Type}.
Variable dumps : Task World -> outcome string.
Variable task_repr : Task World -> string.

Lemma deque_pop_Some (l d : list nat) (idx : nat) :
  deque_pop l = Some (idx, d) -> l = d ++ [idx].
Proof.
  unfold deque_pop. destruct (rev l) as [|x r] eqn:E; [done|].
  intros [= <- <-]. rewrite <- (rev_involutive l), E. reflexivity.
Qed.

(** What a round of [_fill_work_q] can do to the runner. *)
Lemma fill_work_q_body_cases (st st' : ParallelLocalRunner World)
    (o : outcome unit) :
  _fill_work_q_body dumps task_repr st = (st', o) ->
  p_jobs st' = p_jobs st
  ∧ p_quit_early st' = p_quit_early st
  ∧ p_started st' = p_started st
  ∧ p_work_q st `prefix_of` p_work_q st'
  ∧ Spec.count_events Spec.is_cleanup (p_trace st')
    = Spec.count_events Spec.is_cleanup (p_trace st)
  ∧ (o = Return tt ->
     (Z.of_nat (Spec.results_delivered (p_trace st')) + p_n_to_do st'
      = Z.of_nat (Spec.results_delivered (p_trace st)) + p_n_to_do st)%Z
     ∧ ∃ idx d, p_task_idx_deque st = d ++ [idx]
                ∧ (p_task_idx_deque st' = d
                   ∨ p_task_idx_deque st' = idx :: d)).
Proof.
  unfold _fill_work_q_body, Spec.results_delivered.
  destruct (deque_pop (p_task_idx_deque st)) as [[idx d]|] eqn:Hpop.
  2:{ intros [= <- <-]. repeat split; try done. }
  apply deque_pop_Some in Hpop.
  destruct (elements _) as [|parent ?].
  - destruct (negb _).
    { intros [= <- <-]. repeat split; try done. exists idx, d. by auto. }
    cbn [p_ctx].
    destruct (tasks (p_ctx st) !! idx) as [task|];
      [|intros [= <- <-]; repeat split; done].
    destruct (dumps task) as [b|e].
    + intros [= <- <-]. cbn.
      split; [done|]. split; [done|]. split; [done|].
      split; [by apply prefix_app_r|]. split; [count_step|].
      intros _. split; [count_step|]. exists idx, d. by auto.
    + destruct (is_Exception e); intros [= <- <-]; repeat split; done.
  - destruct (_handle_task_result _ _) as [c|e]; intros [= <- <-]; cbn.
    + split; [done|]. split; [done|]. split; [done|]. split; [done|].
      split; [count_step|]. intros _. split; [count_step|].
      exists idx, d. by auto.
    + split; [done|]. split; [done|]. split; [done|]. split; [done|].
      split; [count_step|]. done.
Qed.

(** A round of [_fill_work_q] sends a task to the workers only when none of
    its predecessors has failed and all of them are in [completed_tasks];
    the task is then marked started and its pickle is the one item added to
    the work channel. *)
Theorem fill_work_q_body_sends_ready_tasks_only
    (st st' : ParallelLocalRunner World) (o : outcome unit) :
  _fill_work_q_body dumps task_repr st = (st', o) ->
  p_work_q st' ≠ p_work_q st ->
  ∃ idx d task b,
    p_task_idx_deque st = d ++ [idx]
    ∧ Spec.failed_parents (p_ctx st) idx = ∅
    ∧ predecessors (dag (p_ctx st)) idx ⊆ completed_tasks (p_ctx st)
    ∧ tasks (p_ctx st) !! idx = Some task
    ∧ dumps task = Return b
    ∧ o = Return tt
    ∧ p_work_q st' = p_work_q st ++ [(PklBytes b, PyNone)]
    ∧ idx ∈ started_tasks (p_ctx st')
    ∧ p_task_idx_deque st' = d.
Proof.
  unfold _fill_work_q_body.
  destruct (deque_pop (p_task_idx_deque st)) as [[idx d]|] eqn:Hpop.
  2:{ by intros [= <- <-]. }
  apply deque_pop_Some in Hpop.
  destruct (elements _) as [|parent ?] eqn:Hel.
  2:{ destruct (_handle_task_result _ _); by intros [= <- <-]. }
  apply elements_empty_inv, leibniz_equiv in Hel.
  destruct (bool_decide _) eqn:Hdec; cbn [negb].
  2:{ by intros [= <- <-]. }
  apply bool_decide_eq_true_1 in Hdec. cbn [p_ctx].
  destruct (tasks (p_ctx st) !! idx) as [task|] eqn:Htask;
    [|by intros [= <- <-]].
  destruct (dumps task) as [b|e] eqn:Hd.
  2:{ destruct (is_Exception e); by intros [= <- <-]. }
  intros [= <- <-] _. exists idx, d, task, b. cbn.
  repeat split; try done.
  - intros x Hx. destruct (decide (x ∈ completed_tasks (p_ctx st))); [done|].
    assert (x ∈ predecessors (dag (p_ctx st)) idx ∖ completed_tasks (p_ctx st))
      as Hin by (by apply elem_of_difference).
    rewrite Hdec in Hin. by apply not_elem_of_empty in Hin.
  - apply elem_of_union_l, elem_of_singleton_2, eq_refl.
Qed.

Lemma fill_work_q_loop_cases (n : nat) :
  ∀ (st st' : ParallelLocalRunner World) (o : outcome unit),
    _fill_work_q_loop dumps task_repr n st = (st', o) ->
    p_jobs st' = p_jobs st
    ∧ p_quit_early st' = p_quit_early st
    ∧ p_started st' = p_started st
    ∧ p_work_q st `prefix_of` p_work_q st'
    ∧ Spec.count_events Spec.is_cleanup (p_trace st')
      = Spec.count_events Spec.is_cleanup (p_trace st)
    ∧ (o = Return tt ->
       (Z.of_nat (Spec.results_delivered (p_trace st')) + p_n_to_do st'
        = Z.of_nat (Spec.results_delivered (p_trace st)) + p_n_to_do st)%Z).
Proof.
  induction n as [|n IH]; intros st st' o; cbn [_fill_work_q_loop].
  - intros [= <- <-]. repeat split; done.
  - destruct (_fill_work_q_body dumps task_repr st) as [st1 [[]|e]] eqn:Hb;
      apply fill_work_q_body_cases in Hb
        as (Hj & Hq & Hs & Hw & Hc & Hn).
    + intros Hl. apply IH in Hl as (Hj' & Hq' & Hs' & Hw' & Hc' & Hn').
      split; [congruence|]. split; [congruence|]. split; [congruence|].
      split; [by etrans|]. split; [congruence|].
      intros Ho. destruct (Hn eq_refl) as [Hn1 _]. specialize (Hn' Ho). lia.
    + intros [= <- <-]. repeat split; done.
Qed.

(** What [_fill_work_q] leaves in the deque, given that the deque is
    [pushed ++ remaining] and [remaining] is what the loop has yet to pop. *)
Lemma fill_work_q_loop_deque (remaining : list nat) :
  ∀ (pushed : list nat) (st st' : ParallelLocalRunner World),
    p_task_idx_deque st = pushed ++ remaining ->
    _fill_work_q_loop dumps task_repr (length remaining) st
    = (st', Return tt) ->
    ∃ deferred, p_task_idx_deque st' = deferred ++ pushed
                ∧ deferred `sublist_of` remaining.
Proof.
  induction remaining as [|idx r IH] using rev_ind; intros pushed st st' Hd.
  - simpl. intros [= <-]. exists []. by rewrite app_nil_r in Hd.
  - rewrite length_app, Nat.add_1_r. cbn [_fill_work_q_loop].
    destruct (_fill_work_q_body dumps task_repr st) as [st1 [[]|e]] eqn:Hb;
      [|done].
    apply fill_work_q_body_cases in Hb as (_ & _ & _ & _ & _ & Hn).
    destruct (Hn eq_refl) as (_ & idx' & d & Hd' & Hcase).
    rewrite Hd, app_assoc in Hd'. apply app_inj_tail in Hd' as [<- <-].
    intros Hl. destruct Hcase as [Hd1|Hd1].
    + destruct (IH pushed st1 st' Hd1 Hl) as (deferred & Hfin & Hsub).
      exists deferred. split; [done|]. by apply sublist_inserts_r.
    + destruct (IH (idx :: pushed) st1 st' Hd1 Hl) as (deferred & Hfin & Hsub).
      exists (deferred ++ [idx]). split.
      * by rewrite <- app_assoc.
      * by apply sublist_app.
Qed.

(** [_fill_work_q] pops every index of the deque once.  When it returns, the
    deque holds the indices it deferred, in the order they had, the workers
    are started, and nothing was taken from the work channel. *)
Theorem fill_work_q_keeps_deferred_in_order
    (st st' : ParallelLocalRunner World) :
  _fill_work_q dumps task_repr st = (st', Return tt) ->
  p_task_idx_deque st' `sublist_of` p_task_idx_deque st
  ∧ p_started st' = true
  ∧ p_work_q st `prefix_of` p_work_q st'.
Proof.
  unfold _fill_work_q.
  destruct (_fill_work_q_loop dumps task_repr (length (p_task_idx_deque st)) st)
    as [st1 [[]|e]] eqn:Hl; [|done].
  destruct (fill_work_q_loop_deque (p_task_idx_deque st) [] st st1 eq_refl Hl)
    as (deferred & Hfin & Hsub).
  rewrite app_nil_r in Hfin.
  apply fill_work_q_loop_cases in Hl as (_ & _ & _ & Hw & _).
  destruct (p_started st1) eqn:Hs; intros [= <-]; cbn.
  - by rewrite Hfin.
  - by rewrite Hfin.
Qed.

Lemma fill_work_q_cases (st st' : ParallelLocalRunner World)
    (o : outcome unit) :
  _fill_work_q dumps task_repr st = (st', o) ->
  p_jobs st' = p_jobs st
  ∧ p_quit_early st' = p_quit_early st
  ∧ Spec.count_events Spec.is_cleanup (p_trace st')
    = Spec.count_events Spec.is_cleanup (p_trace st)
  ∧ (o = Return tt ->
     (Z.of_nat (Spec.results_delivered (p_trace st')) + p_n_to_do st'
      = Z.of_nat (Spec.results_delivered (p_trace st)) + p_n_to_do st)%Z).
Proof.
  unfold _fill_work_q.
  destruct (_fill_work_q_loop dumps task_repr (length (p_task_idx_deque st)) st)
    as [st1 o1] eqn:Hl.
  apply fill_work_q_loop_cases in Hl as (Hj & Hq & _ & _ & Hc & Hn).
  destruct o1 as [[]|e].
  - specialize (Hn eq_refl).
    destruct (p_started st1); intros [= <- <-]; cbn;
      (split; [done|]); (split; [done|]); (split; [count_step|]);
      intros _; count_step.
  - intros [= <- <-]. repeat split; done.
Qed.

Lemma count_events_replicate (f : Event -> bool) (ev : Event) (n : nat) :
  f ev = false -> Spec.count_events f (replicate n ev) = 0.
Proof.
  intros Hf. unfold Spec.count_events.
  induction n as [|n IH]; [done|]. simpl. by rewrite Hf.
Qed.

Lemma cleanup_delivers_nothing (st : ParallelLocalRunner World) :
  Spec.results_delivered (p_trace (p_cleanup st))
  = Spec.results_delivered (p_trace st).
Proof.
  unfold Spec.results_delivered, p_cleanup. cbn [p_trace].
  rewrite !count_events_app, count_events_replicate by done.
  unfold Spec.count_events. simpl. lia.
Qed.

(** [run_tasks] cleans up exactly when it returns: a run that returns has
    put one stop sentinel per worker on the work channel as the last thing
    it did, and a run that raises or stays blocked has not cleaned up at
    all.  The number of workers never changes. *)
Theorem parallel_run_tasks_cleanup_iff_return
    (results : list (outcome TaskResult)) :
  ∀ (st st' : ParallelLocalRunner World) (exit : RunExit),
    parallel_run_tasks_loop dumps task_repr results st = (st', exit) ->
    p_jobs st' = p_jobs st
    ∧ match exit with
      | Finished =>
          (∃ tr, p_trace st'
                 = tr ++ replicate (p_jobs st)
                           (EvPut None (PklDict {[ "stop" := PyBool true ]})
                              PyNone)
                      ++ [EvCleanup])
          ∧ ∃ wq, p_work_q st' = wq ++ replicate (p_jobs st) stop_sentinel
      | _ => Spec.count_events Spec.is_cleanup (p_trace st')
             = Spec.count_events Spec.is_cleanup (p_trace st)
      end.
Proof.
  assert (Hfin : ∀ s : ParallelLocalRunner World,
            (∃ tr, p_trace (p_cleanup s)
                   = tr ++ replicate (p_jobs s)
                             (EvPut None
                                (PklDict {[ "stop" := PyBool true ]}) PyNone)
                        ++ [EvCleanup])
            ∧ ∃ wq, p_work_q (p_cleanup s)
                    = wq ++ replicate (p_jobs s) stop_sentinel).
  { intros s. split; eexists; reflexivity. }
  assert (Hstep : ∀ (st st1 : ParallelLocalRunner World) results',
            _fill_work_q dumps task_repr st = (st1, Return tt) ->
            parallel_run_tasks_loop dumps task_repr results' st
            = if (p_n_to_do st1 <=? 0)%Z then (p_cleanup st1, Finished)
              else match results' with
                   | [] => (st1, Blocked)
                   | Raise e :: _ => (p_terminate st1, Raised e)
                   | Return result :: results'' =>
                       match _handle_task_result result (p_ctx st1) with
                       | Raise e =>
                           (mkParallel (p_ctx st1) (p_quit_early st1)
                              (p_task_idx_deque st1) (p_n_to_do st1 - 1)
                              (p_started st1) (p_jobs st1) (p_work_q st1)
                              (p_trace st1 ++ [EvTaskResult result]),
                            Raised e)
                       | Return c =>
                           let st2 :=
                             mkParallel c (p_quit_early st1)
                               (p_task_idx_deque st1) (p_n_to_do st1 - 1)
                               (p_started st1) (p_jobs st1) (p_work_q st1)
                               (p_trace st1 ++ [EvTaskResult result]) in
                           if p_quit_early st2 && error_truthy result
                           then (p_cleanup (p_terminate st2), Finished)
                           else parallel_run_tasks_loop dumps task_repr
                                  results'' st2
                       end
                   end).
  { intros st st1 results' Hf. destruct results'; simpl; by rewrite Hf. }
  induction results as [|got results IH]; intros st st' exit Hrun;
    destruct (_fill_work_q dumps task_repr st) as [st1 [[]|e]] eqn:Hf.
  - rewrite (Hstep _ _ _ Hf) in Hrun.
    apply fill_work_q_cases in Hf as (Hj & _ & Hc & _).
    destruct (p_n_to_do st1 <=? 0)%Z; injection Hrun as <- <-.
    + split; [done|]. rewrite <- Hj. apply Hfin.
    + by split.
  - simpl in Hrun. rewrite Hf in Hrun. injection Hrun as <- <-.
    apply fill_work_q_cases in Hf as (Hj & _ & Hc & _). by split.
  - rewrite (Hstep _ _ _ Hf) in Hrun.
    apply fill_work_q_cases in Hf as (Hj & _ & Hc & _).
    destruct (p_n_to_do st1 <=? 0)%Z.
    { injection Hrun as <- <-. split; [done|]. rewrite <- Hj. apply Hfin. }
    destruct got as [result|e].
    2:{ injection Hrun as <- <-. split; [done|]. count_step. }
    destruct (_handle_task_result result (p_ctx st1)) as [c|e].
    2:{ injection Hrun as <- <-. split; [done|]. count_step. }
    cbn zeta in Hrun. cbn [p_quit_early] in Hrun.
    destruct (p_quit_early st1 && error_truthy result).
    { injection Hrun as <- <-. split; [done|]. rewrite <- Hj.
      match goal with
      | |- context [p_cleanup ?s] => apply (Hfin s)
      end. }
    apply IH in Hrun as [Hj' Hexit]. cbn [p_jobs] in Hj', Hexit.
    split; [congruence|]. rewrite <- Hj.
    destruct exit; [done| |]; count_step.
  - simpl in Hrun. rewrite Hf in Hrun. injection Hrun as <- <-.
    apply fill_work_q_cases in Hf as (Hj & _ & Hc & _). by split.
Qed.

(** A run that returns has handed results to the coordinator and counted
    them: the results delivered and the tasks left to do add up to the
    length of the deque, and the run returns with tasks left to do only
    when [quit_early] is set and it has terminated the workers. *)
Theorem parallel_run_tasks_accounting (task_idx_deque : list nat)
    (results : list (outcome TaskResult))
    (st st' : ParallelLocalRunner World) :
  parallel_run_tasks dumps task_repr task_idx_deque results st
  = (st', Finished) ->
  (Z.of_nat (Spec.results_delivered (p_trace st')) + p_n_to_do st'
   = Z.of_nat (Spec.results_delivered (p_trace st))
     + Z.of_nat (length task_idx_deque))%Z
  ∧ ((p_n_to_do st' <= 0)%Z
     ∨ (p_quit_early st = true ∧ EvTerminate ∈ p_trace st')).
Proof.
  unfold parallel_run_tasks.
  set (st0 := mkParallel (p_ctx st) (p_quit_early st) task_idx_deque
                (Z.of_nat (length task_idx_deque)) (p_started st) (p_jobs st)
                (p_work_q st) (p_trace st)).
  assert (Hgen : ∀ (s s' : ParallelLocalRunner World),
            parallel_run_tasks_loop dumps task_repr results s
            = (s', Finished) ->
            (Z.of_nat (Spec.results_delivered (p_trace s')) + p_n_to_do s'
             = Z.of_nat (Spec.results_delivered (p_trace s)) + p_n_to_do s)%Z
            ∧ ((p_n_to_do s' <= 0)%Z
               ∨ (p_quit_early s = true ∧ EvTerminate ∈ p_trace s'))).
  { clear st st0. induction results as [|got results IH]; intros s s' Hrun;
      simpl in Hrun;
      destruct (_fill_work_q dumps task_repr s) as [s1 [[]|e]] eqn:Hf;
      try done;
      apply fill_work_q_cases in Hf as (_ & Hq & _ & Hn);
      specialize (Hn eq_refl).
    - destruct (Z.leb_spec (p_n_to_do s1) 0); [|done].
      injection Hrun as <-. rewrite cleanup_delivers_nothing.
      split; [done|by left].
    - destruct (Z.leb_spec (p_n_to_do s1) 0).
      { injection Hrun as <-. rewrite cleanup_delivers_nothing.
        split; [done|by left]. }
      destruct got as [result|e]; [|done].
      destruct (_handle_task_result result (p_ctx s1)) as [c|e]; [|done].
      destruct (p_quit_early s1) eqn:Hq1; cbn [andb] in Hrun.
      + destruct (error_truthy result).
        * injection Hrun as <-. rewrite cleanup_delivers_nothing.
          split; [count_step|]. right. split; [congruence|].
          cbn. rewrite !elem_of_app. left. right. by left.
        * apply IH in Hrun as [Hacc Hend]. split; [count_step|].
          destruct Hend as [?|[_ ?]]; [by left|]. right.
          split; [congruence|done].
      + apply IH in Hrun as [Hacc Hend]. split; [count_step|].
        destruct Hend as [?|[Hq2 _]]; [by left|]. simpl in Hq2. congruence. }
  intros Hrun. apply Hgen in Hrun. exact Hrun.
Qed.

(** With an empty deque [run_tasks] reads no result: it starts the workers
    if they were not started, then cleans up and returns. *)
Theorem parallel_run_tasks_empty (results : list (outcome TaskResult))
    (st : ParallelLocalRunner World) :
  ∃ st',
    parallel_run_tasks dumps task_repr [] results st = (st', Finished)
    ∧ p_ctx st' = p_ctx st
    ∧ p_started st' = true
    ∧ p_trace st'
      = p_trace st
        ++ (if p_started st then [] else [EvStartWorkers])
        ++ replicate (p_jobs st)
             (EvPut None (PklDict {[ "stop" := PyBool true ]}) PyNone)
        ++ [EvCleanup].
Proof.
  unfold parallel_run_tasks.
  destruct results, (p_started st) eqn:Hs; simpl; rewrite ?Hs; simpl;
    eexists; (split; [reflexivity|]); simpl; rewrite <- ?app_assoc; done.
Qed.

End ParallelMore.

Lemma fill_work_q_body_sends_ready_tasks_only_witness :
  ∃ idx d task b,
    p_task_idx_deque (Examples.parallel0 Examples.ctx0 [1; 0]) = d ++ [idx]
    ∧ Spec.failed_parents Examples.ctx0 idx = ∅
    ∧ predecessors (dag Examples.ctx0) idx ⊆ completed_tasks Examples.ctx0
    ∧ tasks Examples.ctx0 !! idx = Some task
    ∧ Examples.dumps task = Return b
    ∧ (_fill_work_q_body Examples.dumps Examples.task_repr
         (Examples.parallel0 Examples.ctx0 [1; 0])).2 = Return tt
    ∧ p_work_q (_fill_work_q_body Examples.dumps Examples.task_repr
                  (Examples.parallel0 Examples.ctx0 [1; 0])).1
      = [] ++ [(PklBytes b, PyNone)]
    ∧ idx ∈ started_tasks
              (p_ctx (_fill_work_q_body Examples.dumps Examples.task_repr
                        (Examples.parallel0 Examples.ctx0 [1; 0])).1)
    ∧ p_task_idx_deque
        (_fill_work_q_body Examples.dumps Examples.task_repr
           (Examples.parallel0 Examples.ctx0 [1; 0])).1 = d.
Proof.
  apply (fill_work_q_body_sends_ready_tasks_only Examples.dumps
           Examples.task_repr (Examples.parallel0 Examples.ctx0 [1; 0])).
  - by destruct (_fill_work_q_body Examples.dumps Examples.task_repr
                   (Examples.parallel0 Examples.ctx0 [1; 0])).
  - vm_compute. discriminate.
Defined.

Lemma fill_work_q_keeps_deferred_in_order_witness :
  p_task_idx_deque (_fill_work_q Examples.dumps Examples.task_repr
                      (Examples.parallel0 Examples.ctx0 [1; 0])).1
    `sublist_of` [1; 0]
  ∧ p_started (_fill_work_q Examples.dumps Examples.task_repr
                 (Examples.parallel0 Examples.ctx0 [1; 0])).1 = true
  ∧ [] `prefix_of`
      p_work_q (_fill_work_q Examples.dumps Examples.task_repr
                  (Examples.parallel0 Examples.ctx0 [1; 0])).1.
Proof.
  apply (fill_work_q_keeps_deferred_in_order Examples.dumps
           Examples.task_repr (Examples.parallel0 Examples.ctx0 [1; 0])).
  vm_compute. reflexivity.
Defined.

Lemma parallel_run_tasks_cleanup_iff_return_witness :
  p_jobs (parallel_run_tasks_loop Examples.dumps Examples.task_repr
            [Return Examples.good_result]
            (Examples.parallel0 Examples.ctx0 [0])).1 = 2
  ∧ (∃ tr,
       p_trace (parallel_run_tasks_loop Examples.dumps Examples.task_repr
                  [Return Examples.good_result]
                  (Examples.parallel0 Examples.ctx0 [0])).1
       = tr ++ replicate 2
                 (EvPut None (PklDict {[ "stop" := PyBool true ]}) PyNone)
            ++ [EvCleanup])
  ∧ ∃ wq,
      p_work_q (parallel_run_tasks_loop Examples.dumps Examples.task_repr
                  [Return Examples.good_result]
                  (Examples.parallel0 Examples.ctx0 [0])).1
      = wq ++ replicate 2 stop_sentinel.
Proof.
  apply (parallel_run_tasks_cleanup_iff_return Examples.dumps
           Examples.task_repr [Return Examples.good_result]
           (Examples.parallel0 Examples.ctx0 [0]) _ Finished).
  vm_compute. reflexivity.
Defined.

Lemma parallel_run_tasks_accounting_witness :
  (Z.of_nat
     (Spec.results_delivered
        (p_trace (parallel_run_tasks Examples.dumps Examples.task_repr [0%nat]
                    [Return Examples.good_result]
                    (Examples.parallel0 Examples.ctx0 [])).1))
   + p_n_to_do (parallel_run_tasks Examples.dumps Examples.task_repr [0%nat]
                  [Return Examples.good_result]
                  (Examples.parallel0 Examples.ctx0 [])).1
   = Z.of_nat (Spec.results_delivered []) + Z.of_nat 1)%Z
  ∧ ((p_n_to_do (parallel_run_tasks Examples.dumps Examples.task_repr [0%nat]
                   [Return Examples.good_result]
                   (Examples.parallel0 Examples.ctx0 [])).1 <= 0)%Z
     ∨ (false = true
        ∧ EvTerminate
          ∈ p_trace (parallel_run_tasks Examples.dumps Examples.task_repr
                       [0%nat] [Return Examples.good_result]
                       (Examples.parallel0 Examples.ctx0 [])).1)).
Proof.
  apply (parallel_run_tasks_accounting Examples.dumps Examples.task_repr
           [0%nat] [Return Examples.good_result]
           (Examples.parallel0 Examples.ctx0 [])).
  vm_compute. reflexivity.
Defined.

(** * Further properties of the grid runner *)

Section GridMore.

Context {World : Type}.
Variable dumps : Task World -> outcome string.
Variable task_repr : Task World -> string.

Lemma dict_get_set_eq {V : Type} (k : string) (v : V)
    (d : list (string * V)) :
  dict_get k (dict_set k v d) = Some v.
Proof.
  induction d as [|[k' v'] d IH]; simpl.
  - by rewrite String.eqb_refl.
  - destruct (String.eqb k' k) eqn:E; simpl; rewrite ?E; [|done].
    by rewrite String.eqb_refl.
Qed.

Lemma dict_get_set_ne {V : Type} (k k' : string) (v : V)
    (d : list (string * V)) :
  k ≠ k' -> dict_get k' (dict_set k v d) = dict_get k' d.
Proof.
  intros Hne. induction d as [|[k0 v0] d IH]; simpl.
  - destruct (String.eqb_spec k k'); [done|reflexivity].
  - destruct (String.eqb_spec k0 k) as [->|Hk0]; simpl.
    + destruct (String.eqb_spec k k'); [done|reflexivity].
    + destruct (String.eqb_spec k0 k'); [done|exact IH].
Qed.

(** Registering a pool as the default sends every task without a route of
    its own to that pool, whatever default was set before; registering a
    pool that is not the default leaves every route as it was. *)
Theorem add_worker_route (g : GridRunner World) (cls : WorkerClass)
    (name : string) (rate task_no : nat) :
  (routes g !! task_no = None ->
   route task_no (add_worker cls name rate true g) = Return (name, PyNone))
  ∧ (∀ r, routes g !! task_no = Some r ->
       route task_no (add_worker cls name rate true g) = Return r)
  ∧ route task_no (add_worker cls name rate false g) = route task_no g
  ∧ dict_get name (_worker_config (add_worker cls name rate true g))
    = Some (cls, rate).
Proof.
  unfold route, add_worker; cbn [routes default_worker _worker_config].
  split; [by intros ->|]. split; [by intros r ->|]. split; [done|].
  apply dict_get_set_eq.
Qed.

Lemma init_channels (config : list (string * (WorkerClass * nat))) :
  ∀ (qs : list (string * QPair)) (name : string),
    dict_get name
      (fold_left (fun qs entry => dict_set entry.1 (mkQPair [] []) qs)
         config qs)
    = if bool_decide (name ∈ config.*1) then Some (mkQPair [] [])
      else dict_get name qs.
Proof.
  induction config as [|[k v] config IH]; intros qs name;
    cbn [fold_left].
  - case_bool_decide as Hin; [|done]. by apply not_elem_of_nil in Hin.
  - rewrite IH, fmap_cons. cbn [fst].
    destruct (decide (k = name)) as [->|Hne].
    + rewrite dict_get_set_eq.
      rewrite (bool_decide_eq_true_2 (name ∈ name :: config.*1))
        by (by left).
      by case_bool_decide.
    + rewrite dict_get_set_ne by done.
      destruct (decide (name ∈ config.*1)) as [Hin|Hnin].
      * rewrite !bool_decide_eq_true_2; [done| |done]. by right.
      * rewrite !bool_decide_eq_false_2; [done| |done].
        intros [?|?]%elem_of_cons; congruence.
Qed.

Lemma workers_of_kind (p : bool)
    (config : list (string * (WorkerClass * nat))) :
  let ws := flat_map
              (fun entry : string * (WorkerClass * nat) =>
                 let '(name, (worker_cls, n_procs)) := entry in
                 if Bool.eqb (isproc worker_cls) p
                 then replicate n_procs (name, worker_cls) else [])
              config in
  Forall (fun w : string * WorkerClass => isproc w.2 = p) ws
  ∧ length ws
    = sum_list ((fun entry : string * (WorkerClass * nat) =>
                   if Bool.eqb (isproc entry.2.1) p then entry.2.2 else 0)
                <$> config).
Proof.
  cbn zeta. induction config as [|[name [cls n]] config [IHf IHl]]; simpl.
  - by split.
  - rewrite length_app, IHl. split.
    + apply Forall_app. split; [|done].
      destruct (Bool.eqb (isproc cls) p) eqn:E; [|constructor].
      apply Forall_replicate. simpl. by apply Bool.eqb_prop.
    + destruct (Bool.eqb (isproc cls) p); [|done].
      by rewrite length_replicate.
Qed.

Lemma rates_by_kind (config : list (string * (WorkerClass * nat))) :
  sum_list ((fun entry : string * (WorkerClass * nat) =>
               if Bool.eqb (isproc entry.2.1) true then entry.2.2 else 0)
            <$> config)
  + sum_list ((fun entry : string * (WorkerClass * nat) =>
                 if Bool.eqb (isproc entry.2.1) false then entry.2.2 else 0)
              <$> config)
  = sum_list ((fun entry : string * (WorkerClass * nat) => entry.2.2)
              <$> config).
Proof.
  induction config as [|[name [cls n]] config IH]; [done|].
  rewrite !fmap_cons. cbn [sum_list sum_list_with fst snd].
  destruct (isproc cls); simpl; lia.
Qed.

(** [_init_workers] gives every configured pool a pair of empty channels,
    makes as many workers as the rates add up to, lists the workers of
    process pools before those of thread pools, and starts the cursor
    anew. *)
Theorem init_workers_shape (g : GridRunner World) :
  let g' := _init_workers g in
  (∀ name, name ∈ (_worker_config g).*1 ->
     dict_get name (_worker_qs g') = Some (mkQPair [] []))
  ∧ length (workers g') = sum_list ((fun entry => entry.2.2)
                                    <$> _worker_config g)
  ∧ (∃ procs threads,
       workers g' = procs ++ threads
       ∧ Forall (fun w => isproc w.2 = true) procs
       ∧ Forall (fun w => isproc w.2 = false) threads)
  ∧ _qcycle g' = 0.
Proof.
  cbn zeta. unfold _init_workers; cbn [_worker_qs workers _qcycle].
  destruct (workers_of_kind true (_worker_config g)) as [Hpf Hpl].
  destruct (workers_of_kind false (_worker_config g)) as [Htf Htl].
  cbn zeta in *. split; [|split; [|split; [|done]]].
  - intros name Hin. rewrite init_channels.
    by rewrite bool_decide_eq_true_2.
  - rewrite length_app, Hpl, Htl. apply rates_by_kind.
  - eexists _, _. split; [reflexivity|]. by split.
Qed.

Lemma deliver_workers (arrived : list (nat * TaskResult))
    (g : GridRunner World) :
  workers (deliver arrived g) = workers g.
Proof. reflexivity. Qed.

(** A grid without workers never polls: whatever waits in the channels and
    whatever arrives, [_get_result] only sleeps, once per attempt, and
    returns nothing. *)
Theorem get_result_without_workers
    (arrivals : list (list (nat * TaskResult))) :
  ∀ g : GridRunner World,
    workers g = [] ->
    (_get_result arrivals g).2 = Polling
    ∧ g_trace (_get_result arrivals g).1
      = g_trace g ++ replicate (S (length arrivals)) (EvSleep 50).
Proof.
  induction arrivals as [|arrived arrivals IH]; intros g Hw;
    cbn [_get_result]; rewrite Hw; cbn [length _get_result_pass].
  - by split.
  - destruct (IH (deliver arrived (g_log [EvSleep 50] g))) as [Hexit Htr].
    { by rewrite deliver_workers. }
    split; [done|]. rewrite Htr. cbn. by rewrite <- app_assoc.
Qed.

(** The round of [_fill_work_qs] for an index that passes the gate. *)
Lemma fill_work_qs_body_ready (g : GridRunner World) (idx : nat)
    (d : list nat) (task : Task World) (b : string) :
  g_task_idx_deque g = d ++ [idx] ->
  Spec.failed_parents (g_ctx g) idx = ∅ ->
  Spec.undone_parents (g_ctx g) idx = ∅ ->
  tasks (g_ctx g) !! idx = Some task ->
  dumps task = Return b ->
  _fill_work_qs_body dumps task_repr g
  = let g1 := g_set_deque d g in
    match route idx g with
    | Raise e => (g1, Raise e)
    | Return (name, extra) =>
        match dict_get name (_worker_qs g) with
        | None => (g1, Raise (KeyError name))
        | Some q =>
            (g_log [EvTaskStarted idx]
               (g_set_ctx (_handle_task_started idx (g_ctx g))
                  (g_log [EvPut (Some name) (PklBytes b) extra]
                     (g_set_worker_qs
                        (dict_set name
                           (mkQPair (work_q q ++ [(PklBytes b, extra)])
                              (result_q q))
                           (_worker_qs g)) g1))),
             Return tt)
        end
    end.
Proof.
  intros Hd Hf Hu Htask Hdumps.
  unfold _fill_work_qs_body, _get_next_task.
  rewrite Hd, deque_pop_snoc. cbn [g_set_deque g_ctx].
  unfold Spec.failed_parents in Hf. rewrite Hf, elements_empty.
  unfold Spec.undone_parents in Hu. rewrite Hu.
  rewrite bool_decide_eq_true_2 by done. cbn [negb g_ctx g_set_deque].
  rewrite Htask, Hdumps. reflexivity.
Qed.

(** A task that passes the gate and is pickled goes to the pool its route
    names: the payload is added to the work channel of that pool and of no
    other, with the extra payload of the route, and the task is marked
    started after the put. *)
Theorem fill_work_qs_body_routes (g : GridRunner World) (idx : nat)
    (d : list nat) (task : Task World) (b name : string) (extra : pyval)
    (q : QPair) :
  g_task_idx_deque g = d ++ [idx] ->
  Spec.failed_parents (g_ctx g) idx = ∅ ->
  Spec.undone_parents (g_ctx g) idx = ∅ ->
  tasks (g_ctx g) !! idx = Some task ->
  dumps task = Return b ->
  route idx g = Return (name, extra) ->
  dict_get name (_worker_qs g) = Some q ->
  ∃ g',
    _fill_work_qs_body dumps task_repr g = (g', Return tt)
    ∧ dict_get name (_worker_qs g')
      = Some (mkQPair (work_q q ++ [(PklBytes b, extra)]) (result_q q))
    ∧ (∀ other, name ≠ other ->
         dict_get other (_worker_qs g') = dict_get other (_worker_qs g))
    ∧ g_trace g'
      = g_trace g ++ [EvPut (Some name) (PklBytes b) extra; EvTaskStarted idx]
    ∧ idx ∈ started_tasks (g_ctx g')
    ∧ g_task_idx_deque g' = d
    ∧ g_n_to_do g' = g_n_to_do g.
Proof.
  intros Hd Hf Hu Htask Hdumps Hroute Hq.
  rewrite (fill_work_qs_body_ready g idx d task b Hd Hf Hu Htask Hdumps).
  cbn zeta. rewrite Hroute, Hq. eexists. split; [reflexivity|].
  cbn. split; [apply dict_get_set_eq|].
  split; [intros other Hne; by apply dict_get_set_ne|].
  split; [by rewrite <- app_assoc|].
  split; [|done]. apply elem_of_union_l, elem_of_singleton_2, eq_refl.
Qed.

(** Routing comes after pickling, and it can fail in two ways: without a
    route and a default pool [route] raises its [ValueError], and a route to
    a pool that has no channels raises [KeyError].  Either way the index has
    left the deque, nothing was put on a work channel and the task was not
    marked started. *)
Theorem fill_work_qs_body_route_errors (g : GridRunner World) (idx : nat)
    (d : list nat) (task : Task World) (b : string) :
  g_task_idx_deque g = d ++ [idx] ->
  Spec.failed_parents (g_ctx g) idx = ∅ ->
  Spec.undone_parents (g_ctx g) idx = ∅ ->
  tasks (g_ctx g) !! idx = Some task ->
  dumps task = Return b ->
  (routes g !! idx = None -> default_worker g = None ->
   _fill_work_qs_body dumps task_repr g
   = (g_set_deque d g, Raise (ValueError (no_route_msg idx))))
  ∧ (∀ name extra,
       route idx g = Return (name, extra) ->
       dict_get name (_worker_qs g) = None ->
       _fill_work_qs_body dumps task_repr g
       = (g_set_deque d g, Raise (KeyError name))).
Proof.
  intros Hd Hf Hu Htask Hdumps.
  rewrite (fill_work_qs_body_ready g idx d task b Hd Hf Hu Htask Hdumps).
  cbn zeta. split.
  - intros Hr Hdef. unfold route. by rewrite Hr, Hdef.
  - intros name extra Hroute Hq. by rewrite Hroute, Hq.
Qed.

(** A pool registered as the default after [_init_workers] has no channels:
    the next task without a route of its own that passes the gate fails
    with [KeyError] instead of being sent. *)
Theorem late_default_pool_key_error (g : GridRunner World)
    (cls : WorkerClass) (name : string) (rate idx : nat) (d : list nat)
    (task : Task World) (b : string) :
  name ∉ (_worker_config g).*1 ->
  dict_get name (_worker_qs g) = None ->
  g_task_idx_deque g = d ++ [idx] ->
  Spec.failed_parents (g_ctx g) idx = ∅ ->
  Spec.undone_parents (g_ctx g) idx = ∅ ->
  tasks (g_ctx g) !! idx = Some task ->
  dumps task = Return b ->
  routes g !! idx = None ->
  let g1 := add_worker cls name rate true (_init_workers g) in
  _fill_work_qs_body dumps task_repr g1
  = (g_set_deque d g1, Raise (KeyError name)).
Proof.
  intros Hname Hnone Hd Hf Hu Htask Hdumps Hroute g1.
  rewrite (fill_work_qs_body_ready g1 idx d task b Hd Hf Hu Htask Hdumps).
  cbn zeta.
  assert (Hr : route idx g1 = Return (name, PyNone)).
  { unfold route. subst g1. cbn [add_worker routes _init_workers
      default_worker]. by rewrite Hroute. }
  assert (Hq : dict_get name (_worker_qs g1) = None).
  { subst g1. cbn [add_worker _worker_qs _init_workers].
    rewrite init_channels. by rewrite bool_decide_eq_false_2. }
  by rewrite Hr, Hq.
Qed.

Lemma dict_set_set {V : Type} (k : string) (v v' : V)
    (d : list (string * V)) :
  dict_set k v' (dict_set k v d) = dict_set k v' d.
Proof.
  induction d as [|[k0 v0] d IH]; simpl.
  - by rewrite String.eqb_refl.
  - destruct (String.eqb k0 k) eqn:E; simpl; rewrite ?E; [|by rewrite IH].
    by rewrite String.eqb_refl.
Qed.

Lemma dict_set_id {V : Type} (k : string) (v : V) (d : list (string * V)) :
  dict_get k d = Some v -> dict_set k v d = d.
Proof.
  induction d as [|[k0 v0] d IH]; simpl; [done|].
  destruct (String.eqb_spec k0 k) as [->|Hne].
  - by intros [= ->].
  - intros H. by rewrite IH.
Qed.

(** The sentinels of one pool that has channels. *)
Lemma cleanup_pool_ok (name : string) (n : nat) :
  ∀ (g : GridRunner World) (q : QPair),
    dict_get name (_worker_qs g) = Some q ->
    g_cleanup_pool name n g
    = (g_log (replicate n (EvPut (Some name) (fst stop_sentinel)
                             (snd stop_sentinel)))
         (g_set_worker_qs
            (dict_set name
               (mkQPair (work_q q ++ replicate n stop_sentinel) (result_q q))
               (_worker_qs g)) g),
       Return tt).
Proof.
  induction n as [|n IH]; intros g q Hq; cbn [g_cleanup_pool replicate].
  - rewrite app_nil_r. destruct q as [wq rq]. cbn [work_q result_q].
    rewrite (dict_set_id _ _ _ Hq). destruct g.
    unfold g_log, g_set_worker_qs. cbn. by rewrite app_nil_r.
  - rewrite Hq.
    rewrite (IH _ (mkQPair (work_q q ++ [stop_sentinel]) (result_q q)));
      [|cbn; apply dict_get_set_eq].
    destruct g. unfold g_log, g_set_worker_qs. cbn.
    rewrite dict_set_set, <- !app_assoc. reflexivity.
Qed.

Lemma cleanup_pools_ok (config : list (string * (WorkerClass * nat))) :
  ∀ g : GridRunner World,
    NoDup config.*1 ->
    (∀ name, name ∈ config.*1 -> is_Some (dict_get name (_worker_qs g))) ->
    ∃ g',
      g_cleanup_pools config g = (g', Return tt)
      ∧ (∀ name cls rate q,
           (name, (cls, rate)) ∈ config ->
           dict_get name (_worker_qs g) = Some q ->
           dict_get name (_worker_qs g')
           = Some (mkQPair (work_q q ++ replicate rate stop_sentinel)
                     (result_q q)))
      ∧ (∀ name, name ∉ config.*1 ->
           dict_get name (_worker_qs g') = dict_get name (_worker_qs g))
      ∧ Spec.count_events Spec.is_cleanup (g_trace g')
        = Spec.count_events Spec.is_cleanup (g_trace g)
      ∧ workers g' = workers g.
Proof.
  induction config as [|[name [cls rate]] config IH]; intros g Hnd Hall.
  - exists g. split; [done|]. split; [|done].
    intros ???? Hin. by apply elem_of_nil in Hin.
  - rewrite fmap_cons in Hnd, Hall. cbn [fst] in Hnd, Hall.
    apply NoDup_cons in Hnd as [Hfresh Hnd].
    destruct (Hall name) as [q Hq]; [by left|].
    cbn [g_cleanup_pools]. rewrite (cleanup_pool_ok name rate g q Hq).
    set (g1 := g_log _ _).
    assert (Hother : ∀ other, name ≠ other ->
              dict_get other (_worker_qs g1) = dict_get other (_worker_qs g)).
    { intros other Hne. subst g1. cbn. by apply dict_get_set_ne. }
    destruct (IH g1 Hnd) as (g' & Hrun & Hin & Hout & Hcount & Hw).
    { intros other Hino. rewrite Hother; [apply Hall; by right|].
      intros ->. done. }
    exists g'. split; [done|]. split; [|split; [|split]].
    + intros name' cls' rate' q' [[= -> -> ->]|Hin']%elem_of_cons Hq'.
      * rewrite Hout by done. subst g1. cbn. rewrite dict_get_set_eq.
        congruence.
      * assert (name ≠ name').
        { intros ->. apply Hfresh.
          apply list_elem_of_fmap. by exists (name', (cls', rate')). }
        apply (Hin name' cls' rate' q' Hin'). by rewrite Hother.
    + intros other Hno. rewrite fmap_cons in Hno. cbn [fst] in Hno.
      apply not_elem_of_cons in Hno as [Hne Hno].
      rewrite Hout by done. apply Hother. congruence.
    + rewrite Hcount. subst g1. cbn [g_trace g_log g_set_worker_qs].
      rewrite count_events_app, count_events_replicate by done. lia.
    + rewrite Hw. by subst g1.
Qed.

(** When every configured pool has channels and no pool is configured
    twice, [cleanup] returns after putting on the work channel of each pool
    as many stop sentinels as the pool has workers, behind what the channel
    held, and leaves the channels of other pools alone. *)
Theorem g_cleanup_sentinels (g : GridRunner World) :
  NoDup (_worker_config g).*1 ->
  (∀ name, name ∈ (_worker_config g).*1 ->
     is_Some (dict_get name (_worker_qs g))) ->
  ∃ g',
    g_cleanup g = (g', Return tt)
    ∧ (∀ name cls rate q,
         (name, (cls, rate)) ∈ _worker_config g ->
         dict_get name (_worker_qs g) = Some q ->
         dict_get name (_worker_qs g')
         = Some (mkQPair (work_q q ++ replicate rate stop_sentinel)
                   (result_q q)))
    ∧ (∀ name, name ∉ (_worker_config g).*1 ->
         dict_get name (_worker_qs g') = dict_get name (_worker_qs g))
    ∧ ∃ tr, g_trace g' = tr ++ [EvCleanup].
Proof.
  intros Hnd Hall.
  destruct (cleanup_pools_ok (_worker_config g) g Hnd Hall)
    as (g1 & Hrun & Hin & Hout & _ & _).
  unfold g_cleanup. rewrite Hrun. eexists. split; [reflexivity|].
  cbn. split; [exact Hin|]. split; [exact Hout|]. by eexists.
Qed.

Lemma current_grid_runner_calls_set (contexts : list (RunContext World)) :
  ∀ (p : Process World) (ref : nat),
    _current_grid_runner p = Some ref ->
    current_grid_runner_calls contexts p
    = (replicate (length contexts) ref, p).
Proof.
  induction contexts as [|c contexts IH]; intros p ref Hp; [done|].
  cbn [current_grid_runner_calls]. unfold current_grid_runner.
  rewrite Hp. by rewrite (IH p ref Hp).
Qed.

(** However often [current_grid_runner] is called, and with whatever
    contexts, every call returns the same reference, at most one runner is
    made, and the runners that existed are kept. *)
Theorem current_grid_runner_calls_share
    (contexts : list (RunContext World)) (p : Process World) :
  let out := current_grid_runner_calls contexts p in
  (∃ ref, out.1 = replicate (length contexts) ref)
  ∧ objects p `prefix_of` objects out.2
  ∧ length (objects out.2) ≤ S (length (objects p)).
Proof.
  cbn zeta. destruct (_current_grid_runner p) as [ref|] eqn:Hp.
  - rewrite (current_grid_runner_calls_set contexts p ref Hp). cbn.
    split; [by exists ref|]. split; [done|lia].
  - destruct contexts as [|c contexts].
    + cbn. split; [by exists 0|]. split; [done|lia].
    + cbn [current_grid_runner_calls]. unfold current_grid_runner.
      rewrite Hp.
      rewrite (current_grid_runner_calls_set contexts _ (length (objects p)));
        [|done].
      cbn. split; [by exists (length (objects p))|].
      split; [by apply prefix_app_r|]. rewrite length_app. simpl. lia.
Qed.

End GridMore.

Lemma add_worker_route_witness :
  route 0 (add_worker Examples.slow_cls "slow" 3 true Examples.grid0)
  = Return ("slow", PyNone)
  ∧ route 1 (add_worker Examples.slow_cls "slow" 3 true Examples.grid0)
    = Return ("slow", PyInt 7)
  ∧ dict_get "slow"
      (_worker_config (add_worker Examples.slow_cls "slow" 3 true
                         Examples.grid0))
    = Some (Examples.slow_cls, 3).
Proof.
  destruct (add_worker_route Examples.grid0 Examples.slow_cls "slow" 3 0)
    as (Hdefault & _ & _ & Hconfig).
  destruct (add_worker_route Examples.grid0 Examples.slow_cls "slow" 3 1)
    as (_ & Hrouted & _ & _).
  split; [|split].
  - apply Hdefault. reflexivity.
  - apply Hrouted. reflexivity.
  - exact Hconfig.
Defined.

Lemma init_workers_shape_witness :
  dict_get "slow" (_worker_qs (_init_workers Examples.grid0))
  = Some (mkQPair [] [])
  ∧ length (workers (_init_workers Examples.grid0)) = 3.
Proof.
  destruct (init_workers_shape Examples.grid0) as (Hqs & Hlen & _).
  split.
  - apply Hqs. vm_compute. right. left.
  - exact Hlen.
Defined.

Lemma get_result_without_workers_witness :
  (_get_result [[(0, Examples.good_result)]] Examples.grid_idle).2 = Polling
  ∧ g_trace (_get_result [[(0, Examples.good_result)]]
               Examples.grid_idle).1
    = [] ++ replicate 2 (EvSleep 50).
Proof.
  apply (get_result_without_workers [[(0, Examples.good_result)]]
           Examples.grid_idle).
  reflexivity.
Defined.

Lemma fill_work_qs_body_routes_witness :
  ∃ g',
    _fill_work_qs_body Examples.dumps Examples.task_repr
      (Examples.grid_ready Examples.ctx0 [0]) = (g', Return tt)
    ∧ dict_get "fast" (_worker_qs g')
      = Some (mkQPair ([] ++ [(PklBytes "good", PyNone)]) [])
    ∧ (∀ other, "fast" ≠ other ->
         dict_get other (_worker_qs g')
         = dict_get other
             (_worker_qs (Examples.grid_ready Examples.ctx0 [0])))
    ∧ g_trace g'
      = [] ++ [EvPut (Some "fast") (PklBytes "good") PyNone; EvTaskStarted 0]
    ∧ 0 ∈ started_tasks (g_ctx g')
    ∧ g_task_idx_deque g' = []
    ∧ g_n_to_do g' = 1%Z.
Proof.
  apply (fill_work_qs_body_routes Examples.dumps Examples.task_repr
           (Examples.grid_ready Examples.ctx0 [0]) 0 [] Examples.good_task
           "good" "fast" PyNone (mkQPair [] [])); reflexivity.
Defined.

Lemma fill_work_qs_body_route_errors_witness :
  _fill_work_qs_body Examples.dumps Examples.task_repr Examples.grid_lost
  = (g_set_deque [] Examples.grid_lost, Raise (ValueError (no_route_msg 0)))
  ∧ _fill_work_qs_body Examples.dumps Examples.task_repr Examples.grid_ghost
    = (g_set_deque [] Examples.grid_ghost, Raise (KeyError "ghost")).
Proof.
  split.
  - apply (proj1 (fill_work_qs_body_route_errors Examples.dumps
                    Examples.task_repr Examples.grid_lost 0 []
                    Examples.good_task "good" eq_refl eq_refl eq_refl
                    eq_refl eq_refl)); reflexivity.
  - apply (proj2 (fill_work_qs_body_route_errors Examples.dumps
                    Examples.task_repr Examples.grid_ghost 0 []
                    Examples.good_task "good" eq_refl eq_refl eq_refl
                    eq_refl eq_refl) "ghost" PyNone); reflexivity.
Defined.

Lemma late_default_pool_key_error_witness :
  _fill_work_qs_body Examples.dumps Examples.task_repr
    (add_worker Examples.slow_cls "late" 1 true
       (_init_workers (Examples.grid_ready Examples.ctx0 [0])))
  = (g_set_deque []
       (add_worker Examples.slow_cls "late" 1 true
          (_init_workers (Examples.grid_ready Examples.ctx0 [0]))),
     Raise (KeyError "late")).
Proof.
  apply (late_default_pool_key_error Examples.dumps Examples.task_repr
           (Examples.grid_ready Examples.ctx0 [0]) Examples.slow_cls "late"
           1 0 [] Examples.good_task "good").
  - vm_compute. intros H.
    repeat (apply elem_of_cons in H as [H|H]; [discriminate|]).
    by apply elem_of_nil in H.
  - reflexivity.
  - reflexivity.
  - reflexivity.
  - reflexivity.
  - reflexivity.
  - reflexivity.
  - reflexivity.
Defined.

Lemma g_cleanup_sentinels_witness :
  ∃ g',
    g_cleanup (Examples.grid_ready Examples.ctx0 []) = (g', Return tt)
    ∧ dict_get "fast" (_worker_qs g')
      = Some (mkQPair ([] ++ replicate 2 stop_sentinel) [])
    ∧ dict_get "slow" (_worker_qs g')
      = Some (mkQPair ([] ++ replicate 1 stop_sentinel) []).
Proof.
  destruct (g_cleanup_sentinels (Examples.grid_ready Examples.ctx0 []))
    as (g' & Hrun & Hin & _).
  - vm_compute. repeat constructor.
    + intros H. repeat (apply elem_of_cons in H as [H|H]; [discriminate|]).
      by apply elem_of_nil in H.
    + intros H. by apply elem_of_nil in H.
  - intros name Hin. vm_compute in Hin.
    apply elem_of_cons in Hin as [->|Hin]; [by eexists|].
    apply elem_of_cons in Hin as [->|Hin]; [by eexists|].
    by apply elem_of_nil in Hin.
  - exists g'. split; [exact Hrun|]. split.
    + apply (Hin "fast" Examples.fast_cls 2 (mkQPair [] []));
        [by left|reflexivity].
    + apply (Hin "slow" Examples.slow_cls 1 (mkQPair [] []));
        [right; by left|reflexivity].
Defined.

(** * Further properties of the results and of the command *)


Section ExecuteMore.

Import Commands.

Variable RUNNER_MAP : gmap string RunnerClass.
Variable MRunner_available : bool.


(** When the option names no runner of [RUNNER_MAP] the class is looked for:
    [Runner] for zero processes, whatever the parallel type; otherwise
    [MThreadRunner] for threads and [MRunner] for processes when it is
    available; when it is not available no class is found and the call
    fails with [TypeError]; any other parallel type is an
    [InvalidCommand]. *)
Theorem execute_discovered_runner (dep_class dep_file reporter_obj : value)
    (opt_runner : string) (verbosity : value) (always continue_ : bool)
    (num_process : Z) (par_type : string) (h : store) :
  RUNNER_MAP !! opt_runner = None ->
  let out := _execute RUNNER_MAP MRunner_available dep_class dep_file
               reporter_obj opt_runner verbosity always continue_
               num_process par_type h in
  (num_process = 0%Z -> ∃ call, out.2 = Return call ∧ call_class call = Runner)
  ∧ (num_process ≠ 0%Z -> par_type = "thread" ->
     ∃ call, out.2 = Return call ∧ call_class call = MThreadRunner)
  ∧ (num_process ≠ 0%Z -> par_type = "process" ->
     MRunner_available = true ->
     ∃ call, out.2 = Return call ∧ call_class call = MRunner)
  ∧ (num_process ≠ 0%Z -> par_type = "process" ->
     MRunner_available = false ->
     out.2 = Raise (TypeError "'NoneType' object is not callable"))
  ∧ (num_process ≠ 0%Z -> par_type ≠ "process" -> par_type ≠ "thread" ->
     out.2 = Raise (InvalidCommand ("Invalid parallel type " +:+ par_type))).
Proof.
  intros Hmap. cbn zeta. unfold _execute, list_new, _discover_runner_class.
  rewrite Hmap. repeat split.
  - intros ->. cbn. eexists. split; reflexivity.
  - intros Hn ->. destruct (Z.eqb_spec num_process 0); [done|].
    cbn. eexists. split; reflexivity.
  - intros Hn -> ->. destruct (Z.eqb_spec num_process 0); [done|].
    cbn. eexists. split; reflexivity.
  - intros Hn -> ->. by destruct (Z.eqb_spec num_process 0).
  - intros Hn Hp Ht. destruct (Z.eqb_spec num_process 0); [done|].
    destruct (String.eqb_spec par_type "process"); [done|].
    by destruct (String.eqb_spec par_type "thread").
Qed.

(** [ListDag] ignores the runner the user chose: the runner option is
    [jenkins] afterwards, the class constructed is the one [RUNNER_MAP]
    gives for it, and [TMP_FILE_DIR] is the [tmpfiledir] option. *)
Theorem ListDag_execute_runner (opt_values : gmap string string)
    (TMP_FILE_DIR dir : string) (dep_class dep_file reporter_obj : value)
    (verbosity : value) (always continue_ : bool)
    (num_process : Z) (par_type : string) (h : store) (cls : RunnerClass) :
  RUNNER_MAP !! "jenkins" = Some cls ->
  opt_values !! "tmpfiledir" = Some dir ->
  ∃ h' call,
    ListDag_execute RUNNER_MAP MRunner_available opt_values TMP_FILE_DIR
      dep_class dep_file reporter_obj verbosity always continue_
      num_process par_type h
    = (<[ "runner" := "jenkins" ]> opt_values, dir, h', Return call)
    ∧ call_class call = cls.
Proof.
  intros Hmap Hdir. unfold ListDag_execute.
  rewrite lookup_insert_ne by done. rewrite Hdir, lookup_insert_eq.
  unfold _execute, list_new. rewrite Hmap.
  eexists _, _. split; reflexivity.
Qed.

End ExecuteMore.


Lemma execute_discovered_runner_witness :
  (∃ call,
     (Commands._execute CommandExamples.RUNNER_MAP false
        CommandExamples.dep_class CommandExamples.dep_file
        CommandExamples.reporter_obj "MRunner" Commands.VNone false false 0
        "fibers" []).2 = Return call
     ∧ Commands.call_class call = Commands.Runner)
  ∧ (Commands._execute CommandExamples.RUNNER_MAP false
       CommandExamples.dep_class CommandExamples.dep_file
       CommandExamples.reporter_obj "MRunner" Commands.VNone false false 2
       "process" []).2
    = Raise (TypeError "'NoneType' object is not callable")
  ∧ (Commands._execute CommandExamples.RUNNER_MAP false
       CommandExamples.dep_class CommandExamples.dep_file
       CommandExamples.reporter_obj "MRunner" Commands.VNone false false 2
       "fibers" []).2
    = Raise (InvalidCommand "Invalid parallel type fibers").
Proof.
  split; [|split].
  - apply (proj1 (execute_discovered_runner CommandExamples.RUNNER_MAP false
                    CommandExamples.dep_class CommandExamples.dep_file
                    CommandExamples.reporter_obj "MRunner" Commands.VNone
                    false false 0 "fibers" [] eq_refl)).
    reflexivity.
  - apply (proj1 (proj2 (proj2 (proj2
             (execute_discovered_runner CommandExamples.RUNNER_MAP false
                CommandExamples.dep_class CommandExamples.dep_file
                CommandExamples.reporter_obj "MRunner" Commands.VNone
                false false 2 "process" [] eq_refl))))); done.
  - apply (proj2 (proj2 (proj2 (proj2
             (execute_discovered_runner CommandExamples.RUNNER_MAP false
                CommandExamples.dep_class CommandExamples.dep_file
                CommandExamples.reporter_obj "MRunner" Commands.VNone
                false false 2 "fibers" [] eq_refl))))); done.
Defined.

Lemma ListDag_execute_runner_witness :
  ∃ h' call,
    Commands.ListDag_execute CommandExamples.RUNNER_MAP true
      {[ "runner" := "MRunner"; "tmpfiledir" := "/tmp" ]} "/var/tmp"
      CommandExamples.dep_class CommandExamples.dep_file
      CommandExamples.reporter_obj Commands.VNone false false 0 "process" []
    = (<[ "runner" := "jenkins" ]>
         {[ "runner" := "MRunner"; "tmpfiledir" := "/tmp" ]},
       "/tmp", h', Return call)
    ∧ Commands.call_class call = Commands.MappedRunner "jenkins".
Proof.
  apply (ListDag_execute_runner CommandExamples.RUNNER_MAP true
           {[ "runner" := "MRunner"; "tmpfiledir" := "/tmp" ]} "/var/tmp"
           "/tmp").
  - reflexivity.
  - reflexivity.
Defined.

(** * A waiting result is found *)

Section PollingMore.

Context {World : Type}.

(** Along the cursor, either the first [n] channels are empty or one of them
    holds a result and those before it are empty. *)
Lemma first_waiting_channel (g : GridRunner World) (n : nat) :
  0 < length (_worker_qs g) ->
  (∀ j, j < n ->
     ∃ name q,
       _worker_qs g !! ((_qcycle g + j) mod length (_worker_qs g))
       = Some (name, q) ∧ result_q q = [])
  ∨ (∃ k name q ret rest,
       k < n
       ∧ (∀ j, j < k ->
            ∃ name' q',
              _worker_qs g !! ((_qcycle g + j) mod length (_worker_qs g))
              = Some (name', q') ∧ result_q q' = [])
       ∧ _worker_qs g !! ((_qcycle g + k) mod length (_worker_qs g))
         = Some (name, q)
       ∧ result_q q = ret :: rest).
Proof.
  intros Hp. induction n as [|n [IH|IH]].
  - left. intros j Hj. lia.
  - destruct (lookup_lt_is_Some_2 (_worker_qs g)
                ((_qcycle g + n) mod length (_worker_qs g)))
      as [[name q] Hq].
    { apply Nat.mod_upper_bound. lia. }
    destruct (result_q q) as [|ret rest] eqn:Hres.
    + left. intros j Hj. destruct (decide (j = n)) as [->|Hne].
      * by exists name, q.
      * apply IH. lia.
    + right. exists n, name, q, ret, rest. repeat split; try done. lia.
  - right. destruct IH as (k & name & q & ret & rest & Hk & Hrest).
    exists k, name, q, ret, rest. split; [lia|done].
Qed.

(** With at least as many workers as pools, a result that waits in some
    channel is not passed over: the first attempt of [_get_result] returns
    a result without sleeping. *)
Theorem get_result_returns_waiting (g : GridRunner World)
    (arrivals : list (list (nat * TaskResult)))
    (i : nat) (name : string) (q : QPair)
    (ret : TaskResult) (rest : list TaskResult) :
  length (_worker_qs g) ≤ length (workers g) ->
  _worker_qs g !! i = Some (name, q) ->
  result_q q = ret :: rest ->
  ∃ g' r,
    _get_result arrivals g = (g', Got r)
    ∧ Spec.count_events Spec.is_sleep (g_trace g')
      = Spec.count_events Spec.is_sleep (g_trace g).
Proof.
  intros Hw Hq Hres.
  assert (Hi : i < length (_worker_qs g)) by (by eapply lookup_lt_Some).
  assert (Hp : 0 < length (_worker_qs g)) by lia.
  destruct (first_waiting_channel g (length (_worker_qs g)) Hp)
    as [Hempty|(k & name' & q' & ret' & rest' & Hk & Hbefore & Hq' & Hres')].
  - (* the cursor passes channel [i] within a full turn *)
    set (p := length (_worker_qs g)) in *.
    set (j := (i + (p - _qcycle g mod p)) mod p).
    assert (Hj : j < p) by (apply Nat.mod_upper_bound; lia).
    assert (Hmod : (_qcycle g + j) mod p = i).
    { subst j. rewrite Nat.Div0.add_mod_idemp_r.
      pose proof (Nat.mod_upper_bound (_qcycle g) p ltac:(lia)) as Hc.
      pose proof (Nat.Div0.div_mod (_qcycle g) p) as Hdm.
      replace (_qcycle g + (i + (p - _qcycle g mod p)))
        with (i + (_qcycle g / p + 1) * p) by nia.
      rewrite Nat.Div0.mod_add. by apply Nat.mod_small. }
    destruct (Hempty j Hj) as (n0 & q0 & Hq0 & Hres0).
    rewrite Hmod, Hq in Hq0. injection Hq0 as _ <-. congruence.
  - assert (Hpass := get_result_pass_found k (length (workers g)) g name' q'
                        ret' rest' ltac:(lia) Hbefore Hq' Hres').
    eexists _, ret'. split.
    { destruct arrivals; cbn [_get_result]; rewrite Hpass; reflexivity. }
    cbn [g_trace g_set_worker_qs g_log g_set_qcycle].
    rewrite count_events_app. unfold Spec.cursor_polls.
    assert (Hno : ∀ xs : list nat,
              Spec.count_events Spec.is_sleep
                ((fun k0 => EvPoll ((_qcycle g + k0)
                                    mod length (_worker_qs g))) <$> xs) = 0).
    { induction xs as [|x xs IH]; [done|]. rewrite fmap_cons.
      unfold Spec.count_events in *. simpl. exact IH. }
    rewrite Hno. lia.
Qed.

End PollingMore.

Lemma get_result_returns_waiting_witness :
  ∃ g' r,
    _get_result []
      (deliver [(1, Examples.good_result)]
         (Examples.grid_ready Examples.ctx0 []))
    = (g', Got r)
    ∧ Spec.count_events Spec.is_sleep (g_trace g')
      = Spec.count_events Spec.is_sleep [].
Proof.
  apply (get_result_returns_waiting
           (deliver [(1, Examples.good_result)]
              (Examples.grid_ready Examples.ctx0 []))
           [] 1 "slow" (mkQPair [] [Examples.good_result])
           Examples.good_result []).
  - vm_compute. lia.
  - reflexivity.
  - reflexivity.
Defined.
